(** * The gRPC service host of grpc_example: [grpc_core/servers/manager.py]

    The class [Server] is embedded as monadic code over an explicit process
    state.  Everything the class obtains from other packages (grpc.aio, the
    reflection and health packages, OpenTelemetry, loguru, the ORM table) is
    an _external call_: the call that returned is appended to a trace, and
    whether a call raises is decided by an environment the caller supplies.
    One effect of such a call is followed through: the instrumentation of
    line 103 changes what [aio.server] does on line 113, see [server_chains].
    The statements below are about the order and the arguments of these
    calls, about the singleton slot and about the attributes of the
    instance. *)

From Stdlib Require Import ZArith.
From stdpp Require Import base option list strings gmap.

Set Warnings "-clear-no-such-hyp".

(** ** Names coming from other modules *)

(** [settings]: the fields [manager.py] reads.  The module itself is not part
    of the sources, so its values are parameters; each field stands for the
    text an f-string renders for it. *)
Class Settings := {
  JAEGER_HOST : string;
  JAEGER_PORT : string;
  GRPC_HOST_LOCAL : string;
  GRPC_PORT : string;
  SECRET_KEY : string;
}.

(** The services declared by the protobuf descriptors ([order_pb2],
    [echo_pb2], [health_pb2], [check_pb2]), keyed as in
    [DESCRIPTOR.services_by_name]. *)
Module pb.
Inductive service :=
| OrderService
| EchoService
| Health
| CheckStatusOrderService.

#[global] Instance service_eq_dec : EqDecision service.
Proof. solve_decision. Defined.
End pb.

(** The servicer classes of [grpc_core.servers.services]. *)
Module services.
Inductive servicer :=
| OrderService
| EchoService
| HealthService
| CheckStatusOrderService.

#[global] Instance servicer_eq_dec : EqDecision servicer.
Proof. solve_decision. Defined.
End services.

(** [full_name] of a service descriptor and [reflection.SERVICE_NAME]: values
    of generated and third-party modules, hence parameters. *)
Class Descriptors := {
  full_name : pb.service → string;
  reflection_SERVICE_NAME : string;
}.

(** ** Values *)

(** The Python values passed as [grace]. *)
Inductive pyval :=
| PyNone
| PyBool (b : bool)
| PyInt (z : Z).

(** [bool] is a subclass of [int]: where a number is expected, [False] is 0
    and [True] is 1; [None] is not a number. *)
Definition py_number (v : pyval) : option Z :=
  match v with
  | PyNone => None
  | PyBool b => Some (if b then 1 else 0)%Z
  | PyInt z => Some z
  end.

(** The server interceptors of the program: [AuthInterceptor(secret)] of
    [grpc_core.servers.interceptors], and the one the OpenTelemetry
    instrumentation of grpc servers adds. *)
Inductive interceptor :=
| AuthInterceptor (secret : string)
| OpenTelemetryServerInterceptor.

(** A [grpc.aio.Server] is known by the order of its creation. *)
Abbreviation server_id := nat (only parsing).

(** A reference to an instance of [Server]: its index in the heap. *)
Abbreviation ref := nat (only parsing).

(** ** External calls *)

Inductive call :=
| JaegerExporter (collector_endpoint : string) (insecure : bool)
| BatchSpanProcessor
| Resource_create (service_name : string)
| TracerProvider
| set_tracer_provider
| add_span_processor
| GrpcAioInstrumentorServer
| instrument_server
| GrpcAioInstrumentorClient
| instrument_client
| ThreadPoolExecutor (max_workers : nat)
| AuthInterceptor_init (secret : string)
| aio_server (s : server_id) (max_workers : nat) (interceptors : list interceptor)
| add_insecure_port (s : server_id) (address : string)
| enable_server_reflection (names : list string) (s : server_id)
| servicer_init (c : services.servicer)
| add_servicer_to_server (svc : pb.service) (impl : services.servicer) (s : server_id)
| Order_create_table (if_not_exists : bool)
| server_start (s : server_id)
| logger_info (message : string)
| server_wait_for_termination (s : server_id)
| server_stop (s : server_id) (grace : pyval).

#[global] Instance pyval_eq_dec : EqDecision pyval.
Proof. solve_decision. Defined.
#[global] Instance interceptor_eq_dec : EqDecision interceptor.
Proof. solve_decision. Defined.
#[global] Instance call_eq_dec : EqDecision call.
Proof. solve_decision. Defined.

(** The environment of one method call: [raises c] tells whether the external
    call [c] raises. *)
Definition Env := call → bool.

Definition all_return : Env := λ _, false.

(** ** Process state *)

(** The attributes [__init__] assigns; [None] is an attribute not (yet) set,
    what [hasattr] tests. *)
Record ServerObj := {
  SERVER_ADDRESS : option string;
  server : option server_id;
  initialized : option bool;
}.

Definition empty_obj : ServerObj :=
  {| SERVER_ADDRESS := None; server := None; initialized := None |}.

Record World := {
  _instance : option ref;    (* the class attribute [Server._instance] *)
  heap : list ServerObj;     (* the instances of [Server] allocated so far *)
  servers : nat;             (* number of [grpc.aio.Server] objects created *)
  trace : list call;         (* external calls that returned, oldest first *)
}.

(** A process that has imported the module and done nothing else. *)
Definition fresh_process : World :=
  {| _instance := None; heap := []; servers := 0; trace := [] |}.

Inductive exn :=
| AttributeError (attr : string)
| ExternalError (c : call).

Inductive result (A : Type) :=
| Ok (a : A)
| Raise (e : exn).
Arguments Ok {A} a.
Arguments Raise {A} e.

(** ** The monad: environment, state, exceptions.  The state reached when an
    exception is raised is kept: Python undoes nothing. *)
Definition M (A : Type) : Type := Env → World → result A * World.

#[global] Instance M_ret : MRet M := λ A a _ w, (Ok a, w).

#[global] Instance M_bind : MBind M := λ A B f m raises w,
  match m raises w with
  | (Ok a, w') => f a raises w'
  | (Raise e, w') => (Raise e, w')
  end.

Definition raise {A} (e : exn) : M A := λ _ w, (Raise e, w).

(** An external call: raises when the environment says so, is recorded in
    the trace otherwise. *)
Definition ext (c : call) : M unit := λ raises w,
  if raises c then (Raise (ExternalError c), w)
  else (Ok (),
        {| _instance := _instance w; heap := heap w; servers := servers w;
           trace := trace w ++ [c] |}).

Definition read_instance : M (option ref) := λ _ w, (Ok (_instance w), w).

Definition write_instance (r : option ref) : M unit := λ _ w,
  (Ok (), {| _instance := r; heap := heap w; servers := servers w;
             trace := trace w |}).

(** [super().__new__(cls)]: a new instance without attributes. *)
Definition object__new__ : M ref := λ _ w,
  (Ok (length (heap w)),
   {| _instance := _instance w; heap := heap w ++ [empty_obj];
      servers := servers w; trace := trace w |}).

(** The object behind a reference.  A reference handed out by
    [object__new__] always points into the heap; the second branch is there
    for totality. *)
Definition getobj (self : ref) : M ServerObj := λ _ w,
  match heap w !! self with
  | Some o => (Ok o, w)
  | None => (Raise (AttributeError "self"), w)
  end.

Definition setobj (self : ref) (f : ServerObj → ServerObj) : M unit := λ _ w,
  (Ok (), {| _instance := _instance w; heap := alter f self (heap w);
             servers := servers w; trace := trace w |}).

Definition hasattr_initialized (self : ref) : M bool :=
  o ← getobj self; mret (bool_decide (is_Some (initialized o))).

Definition getattr {A} (name : string) (field : ServerObj → option A)
    (self : ref) : M A :=
  o ← getobj self;
  match field o with
  | Some v => mret v
  | None => raise (AttributeError name)
  end.

Definition set_SERVER_ADDRESS (v : string) (o : ServerObj) : ServerObj :=
  {| SERVER_ADDRESS := Some v; server := server o; initialized := initialized o |}.
Definition set_server (v : server_id) (o : ServerObj) : ServerObj :=
  {| SERVER_ADDRESS := SERVER_ADDRESS o; server := Some v; initialized := initialized o |}.
Definition set_initialized (v : bool) (o : ServerObj) : ServerObj :=
  {| SERVER_ADDRESS := SERVER_ADDRESS o; server := server o; initialized := Some v |}.

(** [aio.server(ThreadPoolExecutor(max_workers=n), interceptors=...)]: the
    server returned is a new one.  The call is recorded with the arguments
    written at the call site.  The interceptors the new server runs are
    another matter: they depend on what is bound to [aio.server] when the
    call is made, and are read off the trace by [server_chains]. *)
Definition call_aio_server (max_workers : nat) (interceptors : list interceptor)
    : M server_id := λ raises w,
  let s := servers w in
  if raises (aio_server s max_workers interceptors)
  then (Raise (ExternalError (aio_server s max_workers interceptors)), w)
  else (Ok s,
        {| _instance := _instance w; heap := heap w; servers := S s;
           trace := trace w ++ [aio_server s max_workers interceptors] |}).

(** ** class Server *)

Section Server.
Context `{Settings, Descriptors}.

(** [Server.__new__], lines 61-69.  An instance of [Server] is truthy (the
    class defines neither [__bool__] nor [__len__]), so [not cls._instance]
    holds exactly when the slot is [None]. *)
Definition Server__new__ : M ref :=
  inst ← read_instance;
  match inst with
  | None =>
      r ← object__new__;
      write_instance (Some r);;
      mret r
  | Some r => mret r
  end.

(** The tuple [SERVICE_NAMES], lines 122-130. *)
Definition SERVICE_NAMES : list string :=
  [ full_name pb.OrderService;
    full_name pb.EchoService;
    full_name pb.Health;
    full_name pb.CheckStatusOrderService;
    reflection_SERVICE_NAME ].

(** [Server.__init__], lines 71-134. *)
Definition Server__init__ (self : ref) : M unit :=
  has ← hasattr_initialized self;
  if has : bool then mret ()
  else
    ext (JaegerExporter (JAEGER_HOST +:+ ":" +:+ JAEGER_PORT) true);;
    ext BatchSpanProcessor;;
    ext (Resource_create "Order");;
    ext TracerProvider;;
    ext set_tracer_provider;;
    ext add_span_processor;;
    ext GrpcAioInstrumentorServer;;
    ext instrument_server;;
    ext GrpcAioInstrumentorClient;;
    ext instrument_client;;
    setobj self (set_SERVER_ADDRESS (GRPC_HOST_LOCAL +:+ ":" +:+ GRPC_PORT));;
    ext (ThreadPoolExecutor 10);;
    ext (AuthInterceptor_init SECRET_KEY);;
    s ← call_aio_server 10 [AuthInterceptor SECRET_KEY];
    setobj self (set_server s);;
    s ← getattr "server" server self;
    address ← getattr "SERVER_ADDRESS" SERVER_ADDRESS self;
    ext (add_insecure_port s address);;
    s ← getattr "server" server self;
    ext (enable_server_reflection SERVICE_NAMES s);;
    setobj self (set_initialized true).

(** The expression [Server()]: [__new__], then [__init__] on what it
    returned, then that object. *)
Definition Server_call : M ref :=
  self ← Server__new__;
  Server__init__ self;;
  mret self.

(** One [add_XServicer_to_server(X(), self.server)] statement: the servicer
    is constructed, [self.server] is read, the generated function is
    called. *)
Definition add_to_server (svc : pb.service) (impl : services.servicer)
    (self : ref) : M unit :=
  ext (servicer_init impl);;
  s ← getattr "server" server self;
  ext (add_servicer_to_server svc impl s).

(** [Server.register], lines 136-151. *)
Definition register (self : ref) : M unit :=
  add_to_server pb.OrderService services.OrderService self;;
  add_to_server pb.EchoService services.EchoService self;;
  add_to_server pb.Health services.HealthService self;;
  add_to_server pb.CheckStatusOrderService services.CheckStatusOrderService self.

(** [Server.run], lines 153-164.  Each [await] is the call it awaits. *)
Definition run (self : ref) : M unit :=
  ext (Order_create_table true);;
  register self;;
  s ← getattr "server" server self;
  ext (server_start s);;
  address ← getattr "SERVER_ADDRESS" SERVER_ADDRESS self;
  ext (logger_info ("*** Сервис gRPC запущен: " +:+ address +:+ " ***"));;
  s ← getattr "server" server self;
  ext (server_wait_for_termination s).

(** [Server.stop], lines 166-174. *)
Definition stop (self : ref) : M unit :=
  ext (logger_info "*** Сервис gRPC остановлен ***");;
  s ← getattr "server" server self;
  ext (server_stop s (PyBool false)).
End Server.

(** * Specification vocabulary *)

(** ** Runs of external calls *)

(** A straight-line method issues its calls in order until one raises:
    [returned] are the calls recorded, [first_raise] the call that raised. *)
Fixpoint returned (raises : Env) (cs : list call) : list call :=
  match cs with
  | [] => []
  | c :: cs => if raises c then [] else c :: returned raises cs
  end.

Fixpoint first_raise (raises : Env) (cs : list call) : option call :=
  match cs with
  | [] => None
  | c :: cs => if raises c then Some c else first_raise raises cs
  end.

Definition outcome (raises : Env) (cs : list call) : result unit :=
  match first_raise raises cs with
  | Some c => Raise (ExternalError c)
  | None => Ok ()
  end.

Section Calls.
Context `{Settings, Descriptors}.

(** The address the constructor computes on line 112. *)
Definition configured_address : string := GRPC_HOST_LOCAL +:+ ":" +:+ GRPC_PORT.

(** Lines 80-110: exporter, span processor, tracer provider, instrumentors. *)
Definition tracing_calls : list call :=
  [ JaegerExporter (JAEGER_HOST +:+ ":" +:+ JAEGER_PORT) true;
    BatchSpanProcessor;
    Resource_create "Order";
    TracerProvider;
    set_tracer_provider;
    add_span_processor;
    GrpcAioInstrumentorServer;
    instrument_server;
    GrpcAioInstrumentorClient;
    instrument_client ].

(** Lines 113-132 for the server created as number [s]. *)
Definition server_calls (s : server_id) : list call :=
  [ ThreadPoolExecutor 10;
    AuthInterceptor_init SECRET_KEY;
    aio_server s 10 [AuthInterceptor SECRET_KEY];
    add_insecure_port s configured_address;
    enable_server_reflection SERVICE_NAMES s ].

Definition init_calls (s : server_id) : list call :=
  tracing_calls ++ server_calls s.

(** The calls of [__init__] that come before reflection is enabled. *)
Definition before_reflection (s : server_id) : list call :=
  tracing_calls ++
  [ ThreadPoolExecutor 10;
    AuthInterceptor_init SECRET_KEY;
    aio_server s 10 [AuthInterceptor SECRET_KEY];
    add_insecure_port s configured_address ].

(** The instance a completed [__init__] leaves. *)
Definition initialized_obj (s : server_id) : ServerObj :=
  {| SERVER_ADDRESS := Some configured_address;
     server := Some s;
     initialized := Some true |}.

(** The service table [register] goes through. *)
Definition registry : list (pb.service * services.servicer) :=
  [ (pb.OrderService, services.OrderService);
    (pb.EchoService, services.EchoService);
    (pb.Health, services.HealthService);
    (pb.CheckStatusOrderService, services.CheckStatusOrderService) ].

Definition register_calls (s : server_id) : list call :=
  '(svc, impl) ← registry;
  [servicer_init impl; add_servicer_to_server svc impl s].

Definition run_calls (s : server_id) (address : string) : list call :=
  [Order_create_table true] ++ register_calls s ++
  [ server_start s;
    logger_info ("*** Сервис gRPC запущен: " +:+ address +:+ " ***");
    server_wait_for_termination s ].

Definition stop_calls (s : server_id) : list call :=
  [ logger_info "*** Сервис gRPC остановлен ***";
    server_stop s (PyBool false) ].
End Calls.

(** What [Server()] gives when [__init__] runs its body on [self]. *)
Definition construct_outcome (raises : Env) (cs : list call) (self : ref)
    : result ref :=
  match first_raise raises cs with
  | Some c => Raise (ExternalError c)
  | None => Ok self
  end.

(** The process [w] with [tr] for its trace. *)
Definition with_trace (w : World) (tr : list call) : World :=
  {| _instance := _instance w; heap := heap w; servers := servers w;
     trace := tr |}.

(** ** Reading a trace *)

Definition is_reflection (c : call) : bool :=
  match c with enable_server_reflection _ _ => true | _ => false end.

Definition is_registration (c : call) : bool :=
  match c with add_servicer_to_server _ _ _ => true | _ => false end.

Definition is_start (c : call) : bool :=
  match c with server_start _ => true | _ => false end.

Definition is_tracing_setup (c : call) : bool :=
  match c with set_tracer_provider => true | _ => false end.

Definition is_server_creation (c : call) : bool :=
  match c with aio_server _ _ _ => true | _ => false end.

Definition is_port_binding (c : call) : bool :=
  match c with add_insecure_port _ _ => true | _ => false end.

Definition occurrences (P : call → bool) (tr : list call) : nat :=
  length (List.filter P tr).

(** The services bound on server [s], in the order of binding. *)
Definition bindings (s : server_id) (tr : list call)
    : list (pb.service * services.servicer) :=
  omap (λ c, match c with
             | add_servicer_to_server svc impl s' =>
                 if decide (s' = s) then Some (svc, impl) else None
             | _ => None
             end) tr.

(** The interceptor lists written in the calls that created server [s]. *)
Definition chains (s : server_id) (tr : list call) : list (list interceptor) :=
  omap (λ c, match c with
             | aio_server s' _ ics => if decide (s' = s) then Some ics else None
             | _ => None
             end) tr.

(** The servers created in [tr], each with the interceptors it runs.
    [GrpcAioInstrumentorServer().instrument()] (line 103) replaces the
    function [grpc.aio.server] by one that inserts the OpenTelemetry server
    interceptor at index 0 of the [interceptors] it is given and then calls
    the function it replaced; a second [instrument()] changes nothing.  Line
    113 looks [server] up in the module [aio] when the call is made.  So once
    [instrument()] has returned in the process ([instrumented]), a server is
    created with the OpenTelemetry interceptor in front of the interceptors
    written at the call site.  This is the behaviour of the package
    [opentelemetry.instrumentation.grpc], which [manager.py] imports. *)
Fixpoint server_chains (instrumented : bool) (tr : list call)
    : list (server_id * list interceptor) :=
  match tr with
  | [] => []
  | instrument_server :: tr => server_chains true tr
  | aio_server s _ ics :: tr =>
      (s, if instrumented then OpenTelemetryServerInterceptor :: ics else ics)
      :: server_chains instrumented tr
  | _ :: tr => server_chains instrumented tr
  end.

(** The interceptor chains of server [s] in a process that started without
    instrumentation and made the calls of [tr]. *)
Definition interceptors_of (s : server_id) (tr : list call)
    : list (list interceptor) :=
  omap (λ p, if decide (p.1 = s) then Some p.2 else None)
       (server_chains false tr).

(** [add_insecure_port] with the address [a]. *)
Definition binds_address (a : string) (c : call) : bool :=
  match c with
  | add_insecure_port _ a' => bool_decide (a' = a)
  | _ => false
  end.

Definition business (svcs : list pb.service) : list pb.service :=
  filter (λ svc, svc ≠ pb.Health) svcs.

Definition bound_names `{Descriptors} (s : server_id) (tr : list call)
    : gset string :=
  list_to_set (full_name <$> (bindings s tr).*1).

(** ** Scenarios *)

(** [main.py], lines 15-16: the host is constructed, then [run] is started. *)
Definition startup `{Settings, Descriptors} : M unit :=
  self ← Server_call;
  run self.

(** A caller evaluating [Server()] once per environment of the list, going
    on after an exception; the results are kept in order. *)
Fixpoint constructions `{Settings, Descriptors} (envs : list Env) (w : World)
    : list (result ref) * World :=
  match envs with
  | [] => ([], w)
  | raises :: envs =>
      let '(r, w1) := Server_call raises w in
      let '(rs, w2) := constructions envs w1 in
      (r :: rs, w2)
  end.

(** An environment in which binding a port raises and nothing else does. *)
Definition address_in_use : Env :=
  λ c, match c with add_insecure_port _ _ => true | _ => false end.

(** ** The claims that fail, as predicates *)

(** C1 as stated: two calls of [register] leave the names one call leaves,
    and no name bound twice. *)
Definition register_idempotent `{Settings, Descriptors}
    (raises : Env) (w : World) (self : ref) (s : server_id) : Prop :=
  let w1 := (register self raises w).2 in
  let w2 := ((register self;; register self) raises w).2 in
  bound_names s (trace w2) = bound_names s (trace w1) ∧
  NoDup (full_name <$> (bindings s (trace w2)).*1).

(** C2 as stated: where reflection is enabled for a server, every service
    of the registry has been bound on it before. *)
Definition reflection_after_registrations `{Settings, Descriptors}
    (tr : list call) : Prop :=
  ∀ pre names s post,
    tr = pre ++ enable_server_reflection names s :: post →
    ∀ svc impl, (svc, impl) ∈ registry →
      add_servicer_to_server svc impl s ∈ pre.

(** Each stage of the initialization body happens at most once: the tracer
    provider is installed, a server is created, a port is bound, reflection
    is enabled. *)
Definition init_body_at_most_once (tr : list call) : Prop :=
  occurrences is_tracing_setup tr ≤ 1 ∧
  occurrences is_server_creation tr ≤ 1 ∧
  occurrences is_port_binding tr ≤ 1 ∧
  occurrences is_reflection tr ≤ 1.

(** C3 as stated, for the constructions of [envs] in a fresh process: those
    that return give one instance, the initialization body happens at most
    once, and at most one instance exists. *)
Definition singleton_as_stated `{Settings, Descriptors} (envs : list Env)
    : Prop :=
  let rs := (constructions envs fresh_process).1 in
  let w := (constructions envs fresh_process).2 in
  (∀ self1 self2, Ok self1 ∈ rs → Ok self2 ∈ rs → self1 = self2) ∧
  init_body_at_most_once (trace w) ∧
  length (heap w) ≤ 1.

(** C5 as stated, for the constructions of [envs] in a fresh process: the
    interceptors of every server created are the [AuthInterceptor] built
    with the secret, first and alone. *)
Definition auth_first_and_only `{Settings, Descriptors} (envs : list Env)
    : Prop :=
  let w := (constructions envs fresh_process).2 in
  ∀ s ics, (s, ics) ∈ server_chains false (trace w) →
    ics = [AuthInterceptor SECRET_KEY].

(** C8 as stated, on the host [self] of the process [w]: [stop], and a
    second [stop] after it, raise nothing and do nothing. *)
Definition stop_is_noop (raises : Env) (w : World) (self : ref) : Prop :=
  stop self raises w = (Ok (), w) ∧
  (stop self;; stop self) raises w = (Ok (), w).

(** C9 as stated: in a process in which the configured address is bound
    already, [Server()] raises. *)
Definition bound_address_is_fatal `{Settings, Descriptors} (raises : Env)
    (w : World) : Prop :=
  0 < occurrences (binds_address configured_address) (trace w) →
  ∃ e, (Server_call raises w).1 = Raise e.

(** ** What holds in every process reached by evaluations of [Server()] *)

Definition servers_known `{Settings} (w : World) : Prop :=
  ∀ s n ics, aio_server s n ics ∈ trace w →
    s < servers w ∧ n = 10 ∧ ics = [AuthInterceptor SECRET_KEY].

Definition host_known `{Settings, Descriptors} (tr : list call)
    (o : ServerObj) : Prop :=
  match initialized o with
  | None => occurrences is_reflection tr = 0
  | Some _ =>
      occurrences is_reflection tr = 1 ∧
      ∃ s, o = initialized_obj s ∧
           chains s tr = [[AuthInterceptor SECRET_KEY]]
  end.

Definition singleton_inv `{Settings, Descriptors} (w : World) : Prop :=
  servers_known w ∧
  match _instance w with
  | None => heap w = [] ∧ occurrences is_reflection (trace w) = 0
  | Some self => self = 0 ∧ ∃ o, heap w = [o] ∧ host_known (trace w) o
  end.

(** A process in which [Server()] runs the body of [__init__]: there is no
    instance yet, or the instance has no [initialized]. *)
Definition not_initialized (w : World) : Prop :=
  match _instance w with
  | None => True
  | Some self => ∃ o, heap w !! self = Some o ∧ initialized o = None
  end.

(** ** Calls made by the owner of a constructed host *)

(** What the owner of the host can do with it: evaluate [Server()] again, or
    call one of the methods. *)
Inductive method :=
| call_Server
| call_register
| call_run
| call_stop.

Definition invoke `{Settings, Descriptors} (m : method) (self : ref)
    : M unit :=
  match m with
  | call_Server => Server_call;; mret ()
  | call_register => register self
  | call_run => run self
  | call_stop => stop self
  end.

(** The calls of [ops] one after the other on the host [self], each with its
    own environment, going on after an exception. *)
Fixpoint session `{Settings, Descriptors} (ops : list (method * Env))
    (self : ref) (w : World) : list (result unit) * World :=
  match ops with
  | [] => ([], w)
  | (m, raises) :: ops =>
      let '(r, w1) := invoke m self raises w in
      let '(rs, w2) := session ops self w1 in
      (r :: rs, w2)
  end.

(** The external calls of a method on a host whose server is [s]. *)
Definition method_calls `{Settings, Descriptors} (m : method)
    (s : server_id) : list call :=
  match m with
  | call_Server => []
  | call_register => register_calls s
  | call_run => run_calls s configured_address
  | call_stop => stop_calls s
  end.

Fixpoint session_calls `{Settings, Descriptors} (ops : list (method * Env))
    (s : server_id) : list call :=
  match ops with
  | [] => []
  | (m, raises) :: ops =>
      returned raises (method_calls m s) ++ session_calls ops s
  end.

(** [Server()] has returned [self], whose server is [s]. *)
Definition constructed `{Settings, Descriptors} (w : World) (self : ref)
    (s : server_id) : Prop :=
  _instance w = Some self ∧ heap w !! self = Some (initialized_obj s).

(** The server an external call is about, if any. *)
Definition server_of (c : call) : option server_id :=
  match c with
  | aio_server s _ _ => Some s
  | add_insecure_port s _ => Some s
  | enable_server_reflection _ s => Some s
  | add_servicer_to_server _ _ s => Some s
  | server_start s => Some s
  | server_wait_for_termination s => Some s
  | server_stop s _ => Some s
  | _ => None
  end.

(** The calls of lines 80-110. *)
Definition is_tracing_call (c : call) : bool :=
  match c with
  | JaegerExporter _ _ | BatchSpanProcessor | Resource_create _
  | TracerProvider | set_tracer_provider | add_span_processor
  | GrpcAioInstrumentorServer | instrument_server
  | GrpcAioInstrumentorClient | instrument_client => true
  | _ => false
  end.

Definition is_log (c : call) : bool :=
  match c with logger_info _ => true | _ => false end.

(** The line [run] logs for the address [a], line 163. *)
Definition start_message (a : string) : string :=
  "*** Сервис gRPC запущен: " +:+ a +:+ " ***".

(** An environment in which enabling reflection raises and nothing else
    does. *)
Definition reflection_fails : Env :=
  λ c, match c with enable_server_reflection _ _ => true | _ => false end.

(** An environment in which installing the tracer provider raises and
    nothing else does. *)
Definition tracing_fails : Env :=
  λ c, match c with set_tracer_provider => true | _ => false end.

(** Every creation of a server in [tr] comes directly after a complete
    tracing setup, the creation of a pool of 10 workers and the construction
    of the [AuthInterceptor] with the secret. *)
Definition creation_follows_setup `{Settings} (tr : list call) : Prop :=
  ∀ pre s n ics post,
    tr = pre ++ aio_server s n ics :: post →
    ∃ pre0, pre = pre0 ++ tracing_calls
                       ++ [ThreadPoolExecutor 10;
                           AuthInterceptor_init SECRET_KEY].

(** ** A concrete configuration, for the examples *)

#[global] Instance demo_settings : Settings :=
  {| JAEGER_HOST := "jaeger";
     JAEGER_PORT := "4317";
     GRPC_HOST_LOCAL := "127.0.0.1";
     GRPC_PORT := "50099";
     SECRET_KEY := "s3cr3t" |}.

#[global] Instance demo_descriptors : Descriptors :=
  {| full_name := λ svc,
       match svc with
       | pb.OrderService => "order.OrderService"
       | pb.EchoService => "echo.EchoService"
       | pb.Health => "grpc.health.v1.Health"
       | pb.CheckStatusOrderService => "check.CheckStatusOrderService"
       end;
     reflection_SERVICE_NAME := "grpc.reflection.v1alpha.ServerReflection" |}.

(** The process of the examples once [Server()] has returned. *)
Definition demo_host : World := (Server_call all_return fresh_process).2.

(** Calls of the examples on that host: it is run and stopped, [Server()] is
    evaluated again, the services are registered once more. *)
Definition demo_session : list (method * Env) :=
  [ (call_run, all_return);
    (call_stop, all_return);
    (call_Server, address_in_use);
    (call_register, all_return) ].

(** * Proofs *)

(** Case analysis along a list of calls: the first that raises, or none. *)
Ltac rewrite_outcomes :=
  repeat match goal with
  | E : _ _ = true |- _ => rewrite E
  | E : _ _ = false |- _ => rewrite E
  end.

Ltac rewrite_outcomes_in H :=
  repeat match goal with
  | E : _ _ = true |- _ => rewrite E in H
  | E : _ _ = false |- _ => rewrite E in H
  end.

Ltac along raises cs fin :=
  lazymatch cs with
  | ?c :: ?cs' => destruct (raises c) eqn:?; [ fin | along raises cs' fin ]
  | _ => fin
  end.

Ltac straight_line raises cs Hself :=
  cbv [mbind M_bind mret M_ret ext getattr getobj setobj raise outcome
       with_trace];
  along raises cs ltac:(idtac);
  repeat (progress (cbn; rewrite_outcomes; rewrite ?Hself; cbn));
  rewrite <- ?app_assoc, ?app_nil_r.

Lemma alter_lookup {A} (f : A → A) (l : list A) i x :
  l !! i = Some x → alter f i l = <[i := f x]> l.
Proof.
  intros Hi. rewrite list_insert_alter. apply list_alter_ext; [|done].
  intros y Hy. congruence.
Qed.

Section Steps.
Context `{Settings, Descriptors}.

Lemma register_runs raises w self o s :
  heap w !! self = Some o → server o = Some s →
  register self raises w =
    (outcome raises (register_calls s),
     with_trace w (trace w ++ returned raises (register_calls s))).
Proof.
  intros Hself Hs. destruct w as [inst hp n tr], o as [a s' i].
  simpl in *; subst s'. unfold register, add_to_server.
  let cs := eval cbn in (register_calls s) in straight_line raises cs Hself.
  all: reflexivity.
Qed.

Lemma run_runs raises w self o s a :
  heap w !! self = Some o → server o = Some s → SERVER_ADDRESS o = Some a →
  run self raises w =
    (outcome raises (run_calls s a),
     with_trace w (trace w ++ returned raises (run_calls s a))).
Proof.
  intros Hself Hs Ha. destruct w as [inst hp n tr], o as [a' s' i].
  simpl in *; subst s' a'. unfold run, register, add_to_server.
  let cs := eval cbv [run_calls] in (run_calls s a) in
  let cs := eval cbn in cs in straight_line raises cs Hself.
  all: reflexivity.
Qed.

Lemma stop_runs raises w self o s :
  heap w !! self = Some o → server o = Some s →
  stop self raises w =
    (outcome raises (stop_calls s),
     with_trace w (trace w ++ returned raises (stop_calls s))).
Proof.
  intros Hself Hs. destruct w as [inst hp n tr], o as [a s' i].
  simpl in *; subst s'. unfold stop.
  let cs := eval cbv [stop_calls] in (stop_calls s) in straight_line raises cs Hself.
  all: reflexivity.
Qed.

Lemma Server__init___runs raises w self o r w' :
  heap w !! self = Some o → initialized o = None →
  Server__init__ self raises w = (r, w') →
  r = outcome raises (init_calls (servers w)) ∧
  trace w' = trace w ++ returned raises (init_calls (servers w)) ∧
  _instance w' = _instance w ∧
  servers w' = servers w + occurrences is_server_creation
                             (returned raises (init_calls (servers w))) ∧
  ∃ o', heap w' = <[self := o']> (heap w) ∧
        (first_raise raises (init_calls (servers w)) = None →
         o' = initialized_obj (servers w) ∧ servers w' = S (servers w)) ∧
        (first_raise raises (init_calls (servers w)) ≠ None →
         initialized o' = None).
Proof.
  destruct w as [inst hp n tr], o as [a s i].
  cbn [heap trace servers _instance initialized].
  intros Hself -> Hrun.
  unfold Server__init__, hasattr_initialized in Hrun.
  cbv [mbind M_bind mret M_ret getobj] in Hrun. cbn [heap] in Hrun.
  rewrite Hself in Hrun. cbn in Hrun.
  cbv [mbind M_bind mret M_ret ext call_aio_server getattr getobj setobj
       raise] in Hrun.
  repeat match type of Hrun with
  | context [if raises ?c then _ else _] =>
      destruct (raises c) eqn:?; cbn in Hrun;
      repeat (progress (rewrite ?list_lookup_alter_eq, ?Hself in Hrun;
                        cbn in Hrun))
  end.
  all: injection Hrun as <- <-.
  all: cbv [outcome init_calls tracing_calls server_calls configured_address
            initialized_obj]; cbn;
         rewrite_outcomes; rewrite <- ?app_assoc, ?app_nil_r; cbn.
  all: split_and?; try done; try lia.
  all: try (unfold occurrences; cbn; lia).
  all: rewrite ?list_alter_alter_eq.
  all: first
    [ erewrite alter_lookup by exact Hself; eexists; split; [reflexivity|]
    | eexists; split; [symmetry; apply list_insert_id, Hself|] ].
  all: split; [intros ?|intros ?]; done.
Qed.

Lemma Server_call_reruns raises w self o r w' :
  _instance w = Some self →
  heap w !! self = Some o → initialized o = None →
  Server_call raises w = (r, w') →
  r = construct_outcome raises (init_calls (servers w)) self ∧
  trace w' = trace w ++ returned raises (init_calls (servers w)) ∧
  _instance w' = Some self ∧
  servers w' = servers w + occurrences is_server_creation
                             (returned raises (init_calls (servers w))) ∧
  ∃ o', heap w' = <[self := o']> (heap w) ∧
        (first_raise raises (init_calls (servers w)) = None →
         o' = initialized_obj (servers w) ∧ servers w' = S (servers w)) ∧
        (first_raise raises (init_calls (servers w)) ≠ None →
         initialized o' = None).
Proof.
  intros Hinst Hself Hi Hcall.
  unfold Server_call, Server__new__, read_instance in Hcall.
  cbv [mbind M_bind mret M_ret] in Hcall. rewrite Hinst in Hcall.
  destruct (Server__init__ self raises w) as [r0 w0] eqn:Hinit.
  destruct (Server__init___runs _ _ _ _ _ _ Hself Hi Hinit)
    as (-> & Htr & Hin & Hsrv & Ho).
  unfold construct_outcome, outcome in *.
  destruct (first_raise raises (init_calls (servers w)));
    injection Hcall as <- <-; rewrite Hin, Hinst; done.
Qed.

Lemma Server_call_first raises w r w' :
  _instance w = None →
  Server_call raises w = (r, w') →
  let self := length (heap w) in
  r = construct_outcome raises (init_calls (servers w)) self ∧
  trace w' = trace w ++ returned raises (init_calls (servers w)) ∧
  _instance w' = Some self ∧
  servers w' = servers w + occurrences is_server_creation
                             (returned raises (init_calls (servers w))) ∧
  ∃ o', heap w' = heap w ++ [o'] ∧
        (first_raise raises (init_calls (servers w)) = None →
         o' = initialized_obj (servers w) ∧ servers w' = S (servers w)) ∧
        (first_raise raises (init_calls (servers w)) ≠ None →
         initialized o' = None).
Proof.
  intros Hinst Hcall self.
  set (w1 := {| _instance := Some self; heap := heap w ++ [empty_obj];
                servers := servers w; trace := trace w |}).
  assert (Hcall1 : Server_call raises w1 = (r, w')).
  { revert Hcall. unfold Server_call, Server__new__, read_instance,
      object__new__, write_instance.
    cbv [mbind M_bind mret M_ret]. rewrite Hinst. done. }
  assert (Hself : heap w1 !! self = Some empty_obj).
  { apply list_lookup_middle. done. }
  destruct (Server_call_reruns raises w1 self empty_obj r w' eq_refl Hself
              eq_refl Hcall1)
    as (Hr & Htr & Hin & Hsrv & o' & Hheap & Ho).
  cbn [servers trace w1] in *.
  split_and?; try done; try lia. exists o'. split; [|done].
  rewrite Hheap. cbn [heap w1]. unfold self.
  rewrite <- (Nat.add_0_r (length (heap w))), insert_app_r. done.
Qed.

Lemma Server_call_initialized raises w self o b :
  _instance w = Some self →
  heap w !! self = Some o → initialized o = Some b →
  Server_call raises w = (Ok self, w).
Proof.
  intros Hinst Hself Hi.
  unfold Server_call, Server__new__, read_instance, Server__init__,
    hasattr_initialized, getobj.
  cbv [mbind M_bind mret M_ret]. rewrite Hinst, Hself, Hi. done.
Qed.
End Steps.

(** ** Properties of [returned] and [first_raise] *)

Lemma returned_prefix raises cs : returned raises cs `prefix_of` cs.
Proof.
  induction cs as [|c cs IH]; simpl; [done|].
  destruct (raises c); [apply prefix_nil|by apply prefix_cons].
Qed.

Lemma all_return_spec raises cs :
  (∀ c, c ∈ cs → raises c = false) →
  returned raises cs = cs ∧ first_raise raises cs = None.
Proof.
  induction cs as [|c cs IH]; simpl; [done|]. intros Hcs.
  rewrite (Hcs c) by left. destruct IH as [-> ->]; [|done].
  intros c' Hc'. apply Hcs. by right.
Qed.

Lemma first_raise_None raises cs :
  first_raise raises cs = None →
  returned raises cs = cs ∧ ∀ c, c ∈ cs → raises c = false.
Proof.
  induction cs as [|c cs IH]; simpl.
  - intros _. split; [done|]. intros c Hc. by apply elem_of_nil in Hc.
  - destruct (raises c) eqn:Hc; [done|]. intros Hcs.
    destruct (IH Hcs) as [-> Hall]. split; [done|].
    intros c' [->|Hc']%elem_of_cons; auto.
Qed.

Lemma first_raise_Some raises cs c :
  first_raise raises cs = Some c →
  raises c = true ∧ ∃ rest, cs = returned raises cs ++ c :: rest.
Proof.
  induction cs as [|c0 cs IH]; simpl; [done|].
  destruct (raises c0) eqn:Hc0.
  - intros [= <-]. split; [done|]. by exists cs.
  - intros Hcs. destruct (IH Hcs) as [Hc [rest Hrest]]. split; [done|].
    exists rest. simpl. by rewrite <- Hrest.
Qed.

Lemma first_raise_elem raises cs c :
  c ∈ cs → raises c = true → first_raise raises cs ≠ None.
Proof.
  intros Hin Hc Hnone. apply first_raise_None in Hnone as [_ Hall].
  rewrite (Hall c Hin) in Hc. done.
Qed.

Lemma returned_app_raise raises l1 c l2 :
  raises c = true → returned raises (l1 ++ c :: l2) = returned raises l1.
Proof.
  intros Hc. induction l1 as [|c1 l1 IH]; simpl; [by rewrite Hc|].
  destruct (raises c1); [done|]. by rewrite IH.
Qed.

Lemma first_raise_app raises l1 l2 :
  (∀ c, c ∈ l1 → raises c = false) →
  first_raise raises (l1 ++ l2) = first_raise raises l2.
Proof.
  induction l1 as [|c1 l1 IH]; simpl; [done|]. intros Hl1.
  rewrite (Hl1 c1) by left. apply IH. intros c Hc. apply Hl1. by right.
Qed.

(** ** Splitting a trace at a call *)

Lemma split_at_unique (P : call → bool) pre c post A c0 B :
  pre ++ c :: post = A ++ c0 :: B →
  P c = true →
  (∀ x, x ∈ A → P x = false) → (∀ x, x ∈ B → P x = false) →
  pre = A ∧ c = c0 ∧ post = B.
Proof.
  revert A. induction pre as [|p pre IH]; intros [|a A] Heq Hc HA HB;
    simplify_eq/=.
  - done.
  - rewrite (HA a) in Hc by left. done.
  - rewrite (HB c) in Hc; [done|]. apply elem_of_app. right. left.
  - destruct (IH A) as (-> & -> & ->); try done.
    intros x Hx. apply HA. by right.
Qed.

Lemma strict_prefix_snoc {A} (l rest : list A) c x k :
  l ++ c :: rest = k ++ [x] → l `prefix_of` k.
Proof.
  revert k. induction l as [|a l IH]; intros [|b k] Heq; simplify_eq/=.
  - apply prefix_nil.
  - apply prefix_nil.
  - by destruct l.
  - apply prefix_cons. by eapply IH.
Qed.

Lemma occurrences_app P l1 l2 :
  occurrences P (l1 ++ l2) = occurrences P l1 + occurrences P l2.
Proof. unfold occurrences. by rewrite List.filter_app, length_app. Qed.

Lemma occurrences_none P l :
  (∀ x, x ∈ l → P x = false) → occurrences P l = 0.
Proof.
  unfold occurrences. induction l as [|a l IH]; simpl; [done|]. intros Hl.
  rewrite (Hl a) by left. apply IH. intros x Hx. apply Hl. by right.
Qed.

(** Membership in a list written out: one case per element. *)
Ltac each_element H :=
  cbn in H;
  repeat (let Heq := fresh in
          apply elem_of_cons in H as [Heq|H];
          [first [discriminate Heq | subst; try done]|]);
  try (by apply elem_of_nil in H).

(** ** A construction that returns *)

Lemma Server_call_returns `{Settings, Descriptors} raises w self w1 :
  _instance w = None →
  Server_call raises w = (Ok self, w1) →
  self = length (heap w) ∧
  w1 = {| _instance := Some self;
          heap := heap w ++ [initialized_obj (servers w)];
          servers := S (servers w);
          trace := trace w ++ init_calls (servers w) |} ∧
  ∀ c, c ∈ init_calls (servers w) → raises c = false.
Proof.
  intros Hinst Hcall.
  destruct (Server_call_first raises w _ _ Hinst Hcall)
    as (Hr & Htr & Hin & _ & o' & Hheap & Hok & _).
  unfold construct_outcome in Hr.
  destruct (first_raise raises (init_calls (servers w))) eqn:Hfirst; [done|].
  injection Hr as ->. destruct (Hok eq_refl) as [-> Hsrv].
  destruct (first_raise_None _ _ Hfirst) as [Hret Hall].
  rewrite Hret in Htr. destruct w1 as [i1 h1 n1 t1]. simpl in *.
  by subst.
Qed.

Lemma register_returns raises w self o s w2 :
  heap w !! self = Some o → server o = Some s →
  register self raises w = (Ok (), w2) →
  w2 = with_trace w (trace w ++ register_calls s).
Proof.
  intros Hself Hs Hreg.
  rewrite (register_runs raises w self o s Hself Hs) in Hreg.
  apply pair_equal_spec in Hreg as [Hout <-]. unfold outcome in Hout.
  destruct (first_raise raises (register_calls s)) eqn:Hfirst; [done|].
  apply first_raise_None in Hfirst as [-> _]. done.
Qed.

(** ** Bindings read off a trace *)

Lemma bindings_app s tr1 tr2 :
  bindings s (tr1 ++ tr2) = bindings s tr1 ++ bindings s tr2.
Proof. apply omap_app. Qed.

Lemma bindings_register_calls s : bindings s (register_calls s) = registry.
Proof. cbn. rewrite !decide_True by done. done. Qed.

Lemma bound_names_app `{Descriptors} s tr1 tr2 :
  bound_names s (tr1 ++ tr2) = bound_names s tr1 ∪ bound_names s tr2.
Proof.
  unfold bound_names. rewrite bindings_app, !fmap_app.
  apply list_to_set_app_L.
Qed.

(** ** Construction followed by [run] *)

Lemma startup_runs `{Settings, Descriptors} raises r w' :
  startup raises fresh_process = (r, w') →
  (r = outcome raises (run_calls 0 configured_address) ∧
   trace w' = init_calls 0 ++ returned raises (run_calls 0 configured_address))
  ∨ (∃ c rest, r = Raise (ExternalError c) ∧
               init_calls 0 = trace w' ++ c :: rest).
Proof.
  unfold startup. cbv [mbind M_bind].
  destruct (Server_call raises fresh_process) as [[self|e] w0] eqn:Hcall.
  - destruct (Server_call_returns raises fresh_process self w0 eq_refl Hcall)
      as (-> & -> & _).
    cbn [fresh_process heap servers trace length app].
    erewrite (run_runs raises _ 0 (initialized_obj 0) 0 configured_address)
      by reflexivity.
    intros Hrun. apply pair_equal_spec in Hrun as [<- <-]. by left.
  - intros Hrun. apply pair_equal_spec in Hrun as [<- <-]. right.
    destruct (Server_call_first raises fresh_process _ w0 eq_refl Hcall)
      as (Hr & Htr & _).
    unfold construct_outcome in Hr. cbn [fresh_process servers trace app] in *.
    destruct (first_raise raises (init_calls 0)) as [c|] eqn:Hfirst; [|done].
    apply first_raise_Some in Hfirst as [_ [rest Hrest]].
    exists c, rest. rewrite Htr. by injection Hr as ->.
Qed.

(** ** The singleton across constructions *)

Lemma occurrences_pos P l x :
  x ∈ l → P x = true → 1 ≤ occurrences P l.
Proof.
  unfold occurrences. induction l as [|a l IH]; intros Hx HP.
  - by apply elem_of_nil in Hx.
  - apply elem_of_cons in Hx as [->|Hx]; simpl.
    + rewrite HP. simpl. lia.
    + destruct (P a); simpl; [|by apply IH]. lia.
Qed.

Lemma chains_app s tr1 tr2 :
  chains s (tr1 ++ tr2) = chains s tr1 ++ chains s tr2.
Proof. apply omap_app. Qed.

Lemma chains_fresh s tr :
  (∀ s' n ics, aio_server s' n ics ∈ tr → s' < s) → chains s tr = [].
Proof.
  induction tr as [|c tr IH]; intros Hfresh; [done|].
  assert (Htr : chains s tr = []).
  { apply IH. intros s' n ics Hin. eapply Hfresh. by right. }
  unfold chains in *. destruct c; simpl; try done.
  destruct (decide (s0 = s)) as [->|]; [|done].
  specialize (Hfresh s max_workers interceptors ltac:(left)). lia.
Qed.

Section Singleton.
Context `{Settings, Descriptors}.

(** One run of the body of [__init__], on an instance that is not
    initialized, keeps what is known. *)
Lemma body_keeps_known raises w tr' n' o' :
  servers_known w → occurrences is_reflection (trace w) = 0 →
  tr' = trace w ++ returned raises (init_calls (servers w)) →
  n' = servers w + occurrences is_server_creation
                     (returned raises (init_calls (servers w))) →
  (first_raise raises (init_calls (servers w)) = None →
   o' = initialized_obj (servers w) ∧ n' = S (servers w)) →
  (first_raise raises (init_calls (servers w)) ≠ None →
   initialized o' = None) →
  (∀ s n ics, aio_server s n ics ∈ tr' →
     s < n' ∧ n = 10 ∧ ics = [AuthInterceptor SECRET_KEY]) ∧
  host_known tr' o'.
Proof.
  intros Hknown Hrefl -> -> Hok Hfail.
  set (cs := init_calls (servers w)) in *.
  assert (Hpre := returned_prefix raises cs).
  split.
  - intros s n ics [Hin|Hin]%elem_of_app.
    + destruct (Hknown s n ics Hin) as (? & ? & ?). split_and?; [lia|done..].
    + pose proof (occurrences_pos is_server_creation _ _ Hin eq_refl).
      pose proof (elem_of_prefix _ _ _ Hin Hpre) as Hcs.
      unfold cs in Hcs. each_element Hcs.
      match goal with
      | Heq : aio_server _ _ _ = aio_server _ _ _ |- _ =>
          injection Heq as -> -> ->
      end.
      split_and?; [lia|done..].
  - unfold host_known.
    destruct (first_raise raises cs) as [c|] eqn:Hfirst.
    + rewrite Hfail by done. rewrite occurrences_app, Hrefl. simpl.
      apply first_raise_Some in Hfirst as [_ [rest Hrest]].
      apply occurrences_none. intros x Hx.
      assert (Hbefore : returned raises cs `prefix_of`
                before_reflection (servers w)).
      { eapply (strict_prefix_snoc _ rest c
                  (enable_server_reflection SERVICE_NAMES (servers w))).
        by rewrite <- Hrest. }
      pose proof (elem_of_prefix _ _ _ Hx Hbefore) as Hx'.
      each_element Hx'.
    + destruct (Hok eq_refl) as [-> _].
      apply first_raise_None in Hfirst as [-> _].
      cbn [initialized initialized_obj].
      rewrite occurrences_app, Hrefl. split; [done|].
      exists (servers w). split; [done|].
      rewrite chains_app, chains_fresh.
      * unfold cs. cbn. by rewrite decide_True.
      * intros s' n ics Hin. by destruct (Hknown s' n ics Hin).
Qed.

Lemma Server_call_keeps_inv raises w r w' :
  singleton_inv w → Server_call raises w = (r, w') →
  singleton_inv w' ∧
  ∀ self, r = Ok self →
    self = 0 ∧ _instance w' = Some 0 ∧ ∃ s, heap w' = [initialized_obj s].
Proof.
  intros [Hknown Hinv] Hcall.
  destruct (_instance w) as [self0|] eqn:Hinst.
  - destruct Hinv as (-> & o & Hheap & Ho). unfold host_known in Ho.
    assert (Hself : heap w !! 0 = Some o) by (by rewrite Hheap).
    destruct (initialized o) as [b|] eqn:Hi.
    + rewrite (Server_call_initialized raises w 0 o b Hinst Hself Hi) in Hcall.
      apply pair_equal_spec in Hcall as [<- <-]. split.
      * split; [done|]. rewrite Hinst. split; [done|]. exists o.
        split; [done|]. unfold host_known. by rewrite Hi.
      * intros self [= <-]. split_and?; [done..|].
        destruct Ho as (_ & s & -> & _). by exists s.
    + destruct (Server_call_reruns raises w 0 o r w' Hinst Hself Hi Hcall)
        as (Hr & Htr & Hin' & Hsrv & o' & Hheap' & Hok & Hfail).
      destruct (body_keeps_known raises w _ _ o' Hknown Ho Htr Hsrv Hok Hfail)
        as [Hknown' Ho'].
      rewrite Hheap in Hheap'. simpl in Hheap'. split.
      * split; [done|]. rewrite Hin'. split; [done|]. by exists o'.
      * intros self ->. unfold construct_outcome in Hr.
        destruct (first_raise raises (init_calls (servers w))); [done|].
        injection Hr as ->. destruct (Hok eq_refl) as [-> _].
        split_and?; [done..|]. by exists (servers w).
  - destruct Hinv as [Hheap Hrefl].
    destruct (Server_call_first raises w r w' Hinst Hcall)
      as (Hr & Htr & Hin' & Hsrv & o' & Hheap' & Hok & Hfail).
    destruct (body_keeps_known raises w _ _ o' Hknown Hrefl Htr Hsrv Hok Hfail)
      as [Hknown' Ho'].
    rewrite Hheap in Hheap', Hin', Hr. simpl in Hheap', Hin', Hr. split.
    + split; [done|]. rewrite Hin'. split; [done|]. by exists o'.
    + intros self ->. unfold construct_outcome in Hr.
      destruct (first_raise raises (init_calls (servers w))); [done|].
      injection Hr as ->. destruct (Hok eq_refl) as [-> _].
      split_and?; [done..|]. by exists (servers w).
Qed.

Lemma constructions_initialized envs w o b :
  _instance w = Some 0 → heap w !! 0 = Some o → initialized o = Some b →
  constructions envs w = (replicate (length envs) (Ok 0), w).
Proof.
  intros Hinst Hself Hi. induction envs as [|raises envs IH]; simpl; [done|].
  rewrite (Server_call_initialized raises w 0 o b Hinst Hself Hi).
  by rewrite IH.
Qed.

Lemma fresh_process_inv : singleton_inv fresh_process.
Proof.
  split; [|done]. intros s n ics Hin. by apply elem_of_nil in Hin.
Qed.

Lemma constructions_keep_inv envs w rs w' :
  singleton_inv w → constructions envs w = (rs, w') →
  singleton_inv w' ∧
  ((∃ self, Ok self ∈ rs) →
   (∀ self, Ok self ∈ rs → self = 0) ∧
   _instance w' = Some 0 ∧ ∃ s, heap w' = [initialized_obj s]).
Proof.
  revert w rs w'. induction envs as [|raises envs IH]; intros w rs w' Hinv.
  - intros [= <- <-]. split; [done|]. intros [self Hin].
    by apply elem_of_nil in Hin.
  - simpl. destruct (Server_call raises w) as [r w1] eqn:Hcall.
    destruct (constructions envs w1) as [rs1 w2] eqn:Hrest.
    intros [= <- <-].
    destruct (Server_call_keeps_inv raises w r w1 Hinv Hcall) as [Hinv1 Hok].
    destruct (IH w1 rs1 w2 Hinv1 Hrest) as [Hinv2 Hoks]. split; [done|].
    intros Hsome. destruct r as [self|e].
    + destruct (Hok self eq_refl) as (-> & Hin1 & s & Hheap1).
      rewrite (constructions_initialized envs w1 (initialized_obj s) true)
        in Hrest; [|done|by rewrite Hheap1|done].
      injection Hrest as <- <-. split_and?; [|done|by exists s].
      intros self [[= ->]|Hin]%elem_of_cons; [done|].
      by apply elem_of_replicate in Hin as [[= ->] _].
    + assert (Hex : ∃ self, Ok self ∈ rs1).
      { destruct Hsome as [self Hin]. exists self.
        by apply elem_of_cons in Hin as [?|?]. }
      destruct (Hoks Hex) as (Hall & ? & ?). split_and?; [|done..].
      intros self [?|Hin]%elem_of_cons; [done|]. by apply Hall.
Qed.
End Singleton.

Lemma Server_call_body `{Settings, Descriptors} raises w r w' :
  not_initialized w → Server_call raises w = (r, w') →
  ∃ self o',
    r = construct_outcome raises (init_calls (servers w)) self ∧
    trace w' = trace w ++ returned raises (init_calls (servers w)) ∧
    _instance w' = Some self ∧ heap w' !! self = Some o' ∧
    (first_raise raises (init_calls (servers w)) = None →
     o' = initialized_obj (servers w)) ∧
    (first_raise raises (init_calls (servers w)) ≠ None →
     initialized o' = None).
Proof.
  unfold not_initialized. intros Hw Hcall.
  destruct (_instance w) as [self|] eqn:Hinst.
  - destruct Hw as (o & Hself & Hi).
    destruct (Server_call_reruns raises w self o r w' Hinst Hself Hi Hcall)
      as (Hr & Htr & Hin & _ & o' & Hheap & Hok & Hfail).
    exists self, o'. split_and?; try done.
    + rewrite Hheap. apply list_lookup_insert_eq. by eapply lookup_lt_Some.
    + intros Hnone. by destruct (Hok Hnone).
  - destruct (Server_call_first raises w r w' Hinst Hcall)
      as (Hr & Htr & Hin & _ & o' & Hheap & Hok & Hfail).
    exists (length (heap w)), o'. split_and?; try done.
    + rewrite Hheap. by apply list_lookup_middle.
    + intros Hnone. by destruct (Hok Hnone).
Qed.

Lemma Server_call_trace `{Settings, Descriptors} raises w r w' :
  singleton_inv w → Server_call raises w = (r, w') →
  trace w' = trace w ∨
  trace w' = trace w ++ returned raises (init_calls (servers w)).
Proof.
  intros [_ Hinv] Hcall. destruct (_instance w) as [self0|] eqn:Hinst.
  - destruct Hinv as (-> & o & Hheap & _).
    assert (Hself : heap w !! 0 = Some o) by (by rewrite Hheap).
    destruct (initialized o) as [b|] eqn:Hi.
    + rewrite (Server_call_initialized raises w 0 o b Hinst Hself Hi) in Hcall.
      apply pair_equal_spec in Hcall as [_ <-]. by left.
    + right.
      by destruct (Server_call_reruns raises w 0 o r w' Hinst Hself Hi Hcall)
        as (_ & ? & _).
  - right.
    by destruct (Server_call_first raises w r w' Hinst Hcall) as (_ & ? & _).
Qed.

(** ** The interceptors of the servers created *)

Lemma server_chains_app b tr1 tr2 :
  ∃ b', server_chains b (tr1 ++ tr2)
        = server_chains b tr1 ++ server_chains b' tr2.
Proof.
  revert b. induction tr1 as [|c tr1 IH]; intros b; [by exists b|].
  destruct c; simpl; try apply IH.
  destruct (IH b) as [b' ->]. by exists b'.
Qed.

(** One run of the body of [__init__] creates at most one server, after
    [instrument()] has returned. *)
Lemma server_chains_body `{Settings, Descriptors} b raises s :
  server_chains b (returned raises (init_calls s)) =
    replicate (occurrences is_server_creation (returned raises (init_calls s)))
      (s, [OpenTelemetryServerInterceptor; AuthInterceptor SECRET_KEY]).
Proof.
  cbv [init_calls tracing_calls server_calls]. unfold occurrences. simpl.
  repeat (match goal with
          | |- context [raises ?c] => destruct (raises c)
          end; simpl; try reflexivity).
Qed.

Lemma server_chains_length s b tr :
  length (omap (λ p : server_id * list interceptor,
                  if decide (p.1 = s) then Some p.2 else None)
               (server_chains b tr))
  = length (chains s tr).
Proof.
  revert b. induction tr as [|c tr IH]; intros b; [done|].
  unfold chains in *. destruct c; simpl; try apply IH.
  destruct (decide _); simpl; [f_equal|]; apply IH.
Qed.

Lemma interceptors_of_created s tr ics :
  Forall (λ p, p.2 = ics) (server_chains false tr) →
  length (chains s tr) = 1 →
  interceptors_of s tr = [ics].
Proof.
  intros Hall Hlen. rewrite <- (server_chains_length s false) in Hlen.
  unfold interceptors_of.
  destruct (omap _ (server_chains false tr)) as [|y [|]] eqn:Hy; try done.
  assert (Hin : y ∈ omap (λ p : server_id * list interceptor,
                            if decide (p.1 = s) then Some p.2 else None)
                         (server_chains false tr))
    by (rewrite Hy; left).
  apply list_elem_of_omap in Hin as (p & Hp & Hsome).
  rewrite Forall_forall in Hall. specialize (Hall p Hp).
  destruct (decide _); [|done]. by injection Hsome as <-; subst.
Qed.

Lemma constructions_chains `{Settings, Descriptors} envs w rs w' :
  singleton_inv w →
  Forall (λ p, p.2 = [OpenTelemetryServerInterceptor;
                       AuthInterceptor SECRET_KEY])
         (server_chains false (trace w)) →
  constructions envs w = (rs, w') →
  Forall (λ p, p.2 = [OpenTelemetryServerInterceptor;
                       AuthInterceptor SECRET_KEY])
         (server_chains false (trace w')).
Proof.
  revert w rs w'. induction envs as [|raises envs IH]; intros w rs w' Hinv Hw.
  - by intros [= <- <-].
  - simpl. destruct (Server_call raises w) as [r w1] eqn:Hcall.
    destruct (constructions envs w1) as [rs1 w2] eqn:Hrest.
    intros [= <- <-].
    destruct (Server_call_keeps_inv raises w r w1 Hinv Hcall) as [Hinv1 _].
    apply (IH w1 rs1 w2 Hinv1); [|done].
    destruct (Server_call_trace raises w r w1 Hinv Hcall) as [->| ->];
      [done|].
    destruct (server_chains_app false (trace w)
                (returned raises (init_calls (servers w)))) as [b' ->].
    apply Forall_app. split; [done|]. rewrite server_chains_body.
    by apply Forall_replicate.
Qed.

(** * The claims *)

(** ** C1: calling [register] twice *)

(** C1, as amended.  On a host whose [server] attribute is set, and when the
    calls return: one call of [register] binds the four services of the
    registry, in order; two calls in a row bind them twice, so every service
    has two bindings; the set of bound names is the same after one call and
    after two. *)
Theorem register_twice_binds_twice `{Descriptors} raises w self o s :
  heap w !! self = Some o → server o = Some s →
  (∀ c, c ∈ register_calls s → raises c = false) →
  let w1 := (register self raises w).2 in
  let w2 := ((register self;; register self) raises w).2 in
  bindings s (trace w1) = bindings s (trace w) ++ registry ∧
  bindings s (trace w2) = bindings s (trace w) ++ registry ++ registry ∧
  bound_names s (trace w2) = bound_names s (trace w1).
Proof.
  intros Hself Hs Hret w1 w2.
  destruct (all_return_spec raises _ Hret) as [Hcs Hnone].
  assert (H1 : register self raises w =
               (Ok (), with_trace w (trace w ++ register_calls s))).
  { rewrite (register_runs raises w self o s Hself Hs).
    unfold outcome. by rewrite Hcs, Hnone. }
  assert (Htr1 : trace w1 = trace w ++ register_calls s).
  { unfold w1. by rewrite H1. }
  assert (Htr2 : trace w2 = (trace w ++ register_calls s) ++ register_calls s).
  { unfold w2. cbv [mbind M_bind]. rewrite H1.
    rewrite (register_runs raises (with_trace w _) self o s Hself Hs).
    by rewrite Hcs. }
  rewrite Htr1, Htr2. split_and?.
  - by rewrite bindings_app, bindings_register_calls.
  - by rewrite !bindings_app, bindings_register_calls, <- app_assoc.
  - rewrite !bound_names_app, <- (assoc_L (∪)).
    by rewrite (idemp_L (∪) (bound_names s (register_calls s))).
Qed.

Lemma register_twice_binds_twice_witness :
  let w1 := (register 0 all_return demo_host).2 in
  let w2 := ((register 0;; register 0) all_return demo_host).2 in
  bindings 0 (trace w1) = bindings 0 (trace demo_host) ++ registry ∧
  bindings 0 (trace w2) = bindings 0 (trace demo_host) ++ registry ++ registry ∧
  bound_names 0 (trace w2) = bound_names 0 (trace w1).
Proof.
  refine (register_twice_binds_twice all_return demo_host 0
            (initialized_obj 0) 0 _ _ _).
  - vm_compute. reflexivity.
  - reflexivity.
  - intros c _. reflexivity.
Defined.

(** C1 fails as stated: on the host of the examples, after two calls of
    [register] the name of every service is bound twice. *)
Lemma register_not_idempotent : ¬ register_idempotent all_return demo_host 0 0.
Proof.
  intros [_ Hnodup]. revert Hnodup. vm_compute.
  intros Hnodup. apply NoDup_cons in Hnodup as [Hnotin _].
  apply Hnotin. do 3 right. left.
Qed.

(** ** C2: when reflection is enabled *)

(** C2, as amended.  In a process that constructs the host and then runs
    it, reflection is enabled at most once, and by the constructor: with the
    names of [SERVICE_NAMES], after the server was created and its port
    bound, before any service is bound on the server and before the server
    is started; what follows it are calls of [run], in the order of [run].
    When [run] returns, reflection was enabled exactly once, and all the
    bindings of [register] and the start of the server come after it. *)
Theorem reflection_enabled_by_constructor `{Settings, Descriptors}
    raises r w' :
  startup raises fresh_process = (r, w') →
  (∀ pre c post,
     trace w' = pre ++ c :: post → is_reflection c = true →
     c = enable_server_reflection SERVICE_NAMES 0 ∧
     pre = before_reflection 0 ∧
     (∀ c', c' ∈ pre ++ post → is_reflection c' = false) ∧
     (∀ c', c' ∈ pre → is_registration c' = false ∧ is_start c' = false) ∧
     post `prefix_of` run_calls 0 configured_address) ∧
  (r = Ok () →
   trace w' = before_reflection 0
              ++ enable_server_reflection SERVICE_NAMES 0
              :: run_calls 0 configured_address).
Proof.
  intros Hstart.
  assert (Hinit : init_calls 0 =
            before_reflection 0 ++ [enable_server_reflection SERVICE_NAMES 0])
    by done.
  assert (Hbefore : ∀ x, x ∈ before_reflection 0 →
            is_reflection x = false ∧ is_registration x = false ∧
            is_start x = false).
  { intros x Hx. each_element Hx. }
  assert (Hrun : ∀ x, x ∈ run_calls 0 configured_address →
            is_reflection x = false).
  { intros x Hx. each_element Hx. }
  destruct (startup_runs raises r w' Hstart)
    as [[Hr Htr]|(c0 & rest & Hr & Hsplit)]; split.
  - intros pre c post Htrace Hc.
    rewrite Htrace, Hinit, <- app_assoc in Htr.
    change (pre ++ c :: post =
            before_reflection 0
            ++ enable_server_reflection SERVICE_NAMES 0
            :: returned raises (run_calls 0 configured_address)) in Htr.
    destruct (split_at_unique is_reflection _ _ _ _ _ _ Htr Hc)
      as (-> & -> & ->).
    { intros x Hx. by apply Hbefore. }
    { intros x Hx. apply Hrun. eapply elem_of_prefix; [done|].
      apply returned_prefix. }
    split_and?; try done.
    + intros c' [Hc'|Hc']%elem_of_app; [by apply Hbefore|].
      apply Hrun. eapply elem_of_prefix; [done|]. apply returned_prefix.
    + intros c' Hc'. by destruct (Hbefore c' Hc') as (_ & ? & ?).
    + apply returned_prefix.
  - rewrite Hr, Htr, Hinit, <- app_assoc. unfold outcome.
    destruct (first_raise raises (run_calls 0 configured_address))
      eqn:Hfirst; [done|].
    intros _. by apply first_raise_None in Hfirst as [-> _].
  - intros pre c post Htrace Hc. exfalso.
    rewrite Hinit in Hsplit. symmetry in Hsplit.
    apply strict_prefix_snoc in Hsplit.
    assert (Hin : c ∈ before_reflection 0).
    { eapply elem_of_prefix; [|done]. rewrite Htrace.
      apply elem_of_app. right. left. }
    destruct (Hbefore c Hin) as [Hc' _]. by rewrite Hc' in Hc.
  - by rewrite Hr.
Qed.

Lemma reflection_enabled_by_constructor_witness :
  let r := Ok () in
  let w' := (startup all_return fresh_process).2 in
  (∀ pre c post,
     trace w' = pre ++ c :: post → is_reflection c = true →
     c = enable_server_reflection SERVICE_NAMES 0 ∧
     pre = before_reflection 0 ∧
     (∀ c', c' ∈ pre ++ post → is_reflection c' = false) ∧
     (∀ c', c' ∈ pre → is_registration c' = false ∧ is_start c' = false) ∧
     post `prefix_of` run_calls 0 configured_address) ∧
  (r = Ok () →
   trace w' = before_reflection 0
              ++ enable_server_reflection SERVICE_NAMES 0
              :: run_calls 0 configured_address).
Proof.
  refine (reflection_enabled_by_constructor all_return (Ok ())
            (startup all_return fresh_process).2 _).
  vm_compute. reflexivity.
Defined.

(** C2 fails as stated: in the process of the examples, the trace of a
    construction followed by [run] has reflection enabled on server 0 before
    any service is bound on it. *)
Lemma reflection_precedes_registrations :
  ¬ reflection_after_registrations (trace (startup all_return fresh_process).2).
Proof.
  intros Hclaim.
  assert (Hsplit : trace (startup all_return fresh_process).2 =
    before_reflection 0
    ++ enable_server_reflection SERVICE_NAMES 0
    :: run_calls 0 configured_address)
    by (vm_compute; reflexivity).
  assert (Hreg : (pb.OrderService, services.OrderService) ∈ registry)
    by left.
  pose proof (Hclaim _ _ _ _ Hsplit _ _ Hreg) as Hbound.
  each_element Hbound.
Qed.

(** ** C3: one host per process *)

(** C3, as amended.  For every sequence of evaluations of [Server()] in a
    fresh process, whatever raises in them: those that return give the same
    instance; at most one instance is ever allocated; the initialization
    body runs to its end (reflection enabled) at most once; once an
    evaluation has returned, every later one returns that instance without
    making any call; and when no evaluation raises, every stage of the body
    happens at most once.  (After an evaluation that raised, the body is run
    again from its start: see C10.) *)
Theorem singleton_host `{Settings, Descriptors} envs rs w :
  constructions envs fresh_process = (rs, w) →
  (∀ self, Ok self ∈ rs → self = 0) ∧
  length (heap w) ≤ 1 ∧
  occurrences is_reflection (trace w) ≤ 1 ∧
  ((∃ self, Ok self ∈ rs) → ∀ raises, Server_call raises w = (Ok 0, w)) ∧
  ((∀ r, r ∈ rs → ∃ self, r = Ok self) → init_body_at_most_once (trace w)).
Proof.
  intros Hrun.
  destruct (constructions_keep_inv envs fresh_process rs w
              fresh_process_inv Hrun) as [[_ Hinv] Hoks].
  split_and?.
  - intros self Hin. apply Hoks; [by exists self|done].
  - destruct (_instance w).
    + destruct Hinv as (_ & o & -> & _). done.
    + destruct Hinv as [-> _]. simpl. lia.
  - destruct (_instance w).
    + destruct Hinv as (_ & o & _ & Ho). unfold host_known in Ho.
      destruct (initialized o); [destruct Ho as [-> _]|rewrite Ho]; lia.
    + destruct Hinv as [_ ->]. lia.
  - intros Hsome raises. destruct (Hoks Hsome) as (_ & Hinst & s & Hheap).
    apply (Server_call_initialized raises w 0 (initialized_obj s) true);
      [done|by rewrite Hheap|done].
  - intros Hall. destruct envs as [|raises envs]; simpl in Hrun.
    + injection Hrun as <- <-.
      unfold init_body_at_most_once, occurrences. simpl. lia.
    + destruct (Server_call raises fresh_process) as [r w1] eqn:Hcall.
      destruct (constructions envs w1) as [rs1 w2] eqn:Hrest.
      injection Hrun as <- <-.
      destruct (Hall r ltac:(left)) as [self ->].
      destruct (Server_call_returns raises fresh_process self w1 eq_refl Hcall)
        as (-> & -> & _).
      erewrite constructions_initialized in Hrest; [|done..].
      injection Hrest as <- <-.
      unfold init_body_at_most_once, occurrences. cbn. lia.
Qed.

Lemma singleton_host_witness :
  let rs := [Raise (ExternalError (add_insecure_port 0 configured_address));
             Ok 0; Ok 0] in
  let w := (constructions [address_in_use; all_return; all_return]
              fresh_process).2 in
  (∀ self, Ok self ∈ rs → self = 0) ∧
  length (heap w) ≤ 1 ∧
  occurrences is_reflection (trace w) ≤ 1 ∧
  ((∃ self, Ok self ∈ rs) → ∀ raises, Server_call raises w = (Ok 0, w)) ∧
  ((∀ r, r ∈ rs → ∃ self, r = Ok self) → init_body_at_most_once (trace w)).
Proof.
  refine (singleton_host [address_in_use; all_return; all_return] _ _ _).
  vm_compute. reflexivity.
Defined.

(** C3 fails as stated: when the first [Server()] raises because the port
    cannot be bound and the second returns, the tracer provider has been
    installed twice and two servers have been created. *)
Lemma init_body_runs_twice : ¬ singleton_as_stated [address_in_use; all_return].
Proof.
  intros (_ & (Htracing & _) & _). revert Htracing. vm_compute. lia.
Qed.

(** ** C4: the names handed to reflection *)

(** C4.  When [Server()] has returned in a fresh process and [register] has
    bound the services, the names with which reflection was enabled for a
    server are, as a set: the full names of the services bound on that
    server other than the health service, the full name of the health
    service, and the name of the reflection service. *)
Theorem reflection_name_set `{Settings, Descriptors}
    raises1 raises2 self w1 w2 names s :
  Server_call raises1 fresh_process = (Ok self, w1) →
  register self raises2 w1 = (Ok (), w2) →
  enable_server_reflection names s ∈ trace w2 →
  list_to_set names =@{gset string}
    list_to_set (full_name <$> business (bindings s (trace w2)).*1)
    ∪ {[full_name pb.Health]} ∪ {[reflection_SERVICE_NAME]}.
Proof.
  intros Hcall Hreg Hin.
  destruct (Server_call_returns raises1 fresh_process self w1 eq_refl Hcall)
    as (-> & -> & _).
  cbn [fresh_process heap servers trace length app] in Hreg.
  eapply register_returns in Hreg; [|reflexivity..]. subst w2.
  assert (names = SERVICE_NAMES ∧ s = 0) as [-> ->].
  { cbn in Hin.
    repeat (apply elem_of_cons in Hin as [Hin|Hin]; [try discriminate|]).
    - by injection Hin as -> ->.
    - by apply elem_of_nil in Hin. }
  cbn. set_solver.
Qed.

Lemma reflection_name_set_witness :
  list_to_set SERVICE_NAMES =@{gset string}
    list_to_set (full_name <$>
      business (bindings 0 (trace (register 0 all_return demo_host).2)).*1)
    ∪ {[full_name pb.Health]} ∪ {[reflection_SERVICE_NAME]}.
Proof.
  refine (reflection_name_set all_return all_return 0 demo_host
            (register 0 all_return demo_host).2 SERVICE_NAMES 0 _ _ _).
  - vm_compute. reflexivity.
  - vm_compute. reflexivity.
  - vm_compute. do 14 right. left.
Defined.

(** ** C5: the interceptors of the server *)

(** C5, as amended.  For every sequence of evaluations of [Server()] in a
    fresh process, whatever raises in them: the list of interceptors written
    in every creation of a server is made of the one [AuthInterceptor] built
    with [SECRET_KEY]; every server created runs the OpenTelemetry
    interceptor first and that [AuthInterceptor] second and last; and when an
    evaluation has returned, the server of the host was created once, with
    that list and that chain. *)
Theorem auth_interceptor_behind_tracing `{Settings, Descriptors} envs rs w :
  constructions envs fresh_process = (rs, w) →
  (∀ s n ics, aio_server s n ics ∈ trace w →
     ics = [AuthInterceptor SECRET_KEY]) ∧
  (∀ s ics, (s, ics) ∈ server_chains false (trace w) →
     ics = [OpenTelemetryServerInterceptor; AuthInterceptor SECRET_KEY]) ∧
  (∀ self, Ok self ∈ rs →
     ∃ o s, heap w !! self = Some o ∧ server o = Some s ∧
            chains s (trace w) = [[AuthInterceptor SECRET_KEY]] ∧
            interceptors_of s (trace w)
              = [[OpenTelemetryServerInterceptor;
                  AuthInterceptor SECRET_KEY]]).
Proof.
  intros Hrun.
  destruct (constructions_keep_inv envs fresh_process rs w
              fresh_process_inv Hrun) as [[Hknown Hinv] Hoks].
  pose proof (constructions_chains envs fresh_process rs w fresh_process_inv
                ltac:(constructor) Hrun) as Hchains.
  split_and?.
  - intros s n ics Hin. by destruct (Hknown s n ics Hin) as (_ & _ & ?).
  - intros s ics Hin. rewrite Forall_forall in Hchains.
    apply (Hchains (s, ics) Hin).
  - intros self Hin.
    destruct (Hoks ltac:(by exists self)) as (Hall & Hinst & s & Hheap).
    rewrite (Hall self Hin). rewrite Hinst in Hinv.
    destruct Hinv as (_ & o & Hheap' & Ho).
    rewrite Hheap in Hheap'. injection Hheap' as <-.
    destruct Ho as (_ & s' & [= ->] & Hchain).
    exists (initialized_obj s'), s'. rewrite Hheap.
    split_and?; [done..|].
    apply interceptors_of_created; [done|]. by rewrite Hchain.
Qed.

Lemma auth_interceptor_behind_tracing_witness :
  let rs := [Raise (ExternalError (add_insecure_port 0 configured_address));
             Ok 0] in
  let w := (constructions [address_in_use; all_return] fresh_process).2 in
  (∀ s n ics, aio_server s n ics ∈ trace w →
     ics = [AuthInterceptor SECRET_KEY]) ∧
  (∀ s ics, (s, ics) ∈ server_chains false (trace w) →
     ics = [OpenTelemetryServerInterceptor; AuthInterceptor SECRET_KEY]) ∧
  (∀ self, Ok self ∈ rs →
     ∃ o s, heap w !! self = Some o ∧ server o = Some s ∧
            chains s (trace w) = [[AuthInterceptor SECRET_KEY]] ∧
            interceptors_of s (trace w)
              = [[OpenTelemetryServerInterceptor;
                  AuthInterceptor SECRET_KEY]]).
Proof.
  refine (auth_interceptor_behind_tracing [address_in_use; all_return] _ _ _).
  vm_compute. reflexivity.
Defined.

(** C5 fails as stated: the server that [Server()] creates in a fresh
    process runs the OpenTelemetry interceptor before the [AuthInterceptor],
    which is neither first nor alone. *)
Lemma auth_interceptor_not_first : ¬ auth_first_and_only [all_return].
Proof.
  intros Hfirst.
  assert (Hin : (0, [OpenTelemetryServerInterceptor;
                     AuthInterceptor SECRET_KEY])
                ∈ server_chains false
                    (trace (constructions [all_return] fresh_process).2))
    by (vm_compute; left).
  by specialize (Hfirst _ _ Hin).
Qed.

(** ** C6: the order of [run] *)

(** C6.  On a constructed host, [run] issues, in this order: the creation of
    the table if it does not exist, the calls of [register], the start of
    the server, the log line with the bound address, the wait for
    termination; it stops at the first call that raises, and returns when
    none does. *)
Theorem run_order raises w self o s a r w' :
  heap w !! self = Some o → server o = Some s → SERVER_ADDRESS o = Some a →
  run self raises w = (r, w') →
  let steps :=
    [Order_create_table true] ++ register_calls s ++
    [ server_start s;
      logger_info ("*** Сервис gRPC запущен: " +:+ a +:+ " ***");
      server_wait_for_termination s ] in
  trace w' = trace w ++ returned raises steps ∧
  r = outcome raises steps ∧
  ((∀ c, c ∈ steps → raises c = false) →
   r = Ok () ∧ trace w' = trace w ++ steps).
Proof.
  intros Hself Hs Ha Hrun steps.
  rewrite (run_runs raises w self o s a Hself Hs Ha) in Hrun.
  injection Hrun as Hr Hw. change (run_calls s a) with steps in Hr, Hw.
  assert (Htr : trace w' = trace w ++ returned raises steps)
    by (by rewrite <- Hw).
  split; [done|]. split; [done|]. intros Hret.
  destruct (all_return_spec raises steps Hret) as [Hcs Hnone].
  rewrite Htr, <- Hr. unfold outcome. by rewrite Hcs, Hnone.
Qed.

Lemma run_order_witness :
  let steps :=
    [Order_create_table true] ++ register_calls 0 ++
    [ server_start 0;
      logger_info ("*** Сервис gRPC запущен: " +:+ "127.0.0.1:50099" +:+ " ***");
      server_wait_for_termination 0 ] in
  trace (run 0 all_return demo_host).2
    = trace demo_host ++ returned all_return steps ∧
  Ok () = outcome all_return steps ∧
  ((∀ c, c ∈ steps → all_return c = false) →
   Ok () = Ok () ∧
   trace (run 0 all_return demo_host).2 = trace demo_host ++ steps).
Proof.
  refine (run_order all_return demo_host 0 (initialized_obj 0) 0
            "127.0.0.1:50099" (Ok ()) _ _ _ _ _).
  - vm_compute. reflexivity.
  - reflexivity.
  - reflexivity.
  - vm_compute. reflexivity.
Defined.

(** ** C7: [stop] asks for no grace period *)

(** C7.  On a constructed host, [stop] logs and then stops the host's own
    server with [grace=False], which as a number of seconds is 0; it makes
    no other call. *)
Theorem stop_no_grace raises w self o s r w' :
  heap w !! self = Some o → server o = Some s →
  stop self raises w = (r, w') →
  let steps :=
    [ logger_info "*** Сервис gRPC остановлен ***";
      server_stop s (PyBool false) ] in
  trace w' = trace w ++ returned raises steps ∧
  r = outcome raises steps ∧
  py_number (PyBool false) = Some 0%Z ∧
  ((∀ c, c ∈ steps → raises c = false) →
   r = Ok () ∧ trace w' = trace w ++ steps).
Proof.
  intros Hself Hs Hstop steps.
  rewrite (stop_runs raises w self o s Hself Hs) in Hstop.
  injection Hstop as Hr Hw. change (stop_calls s) with steps in Hr, Hw.
  assert (Htr : trace w' = trace w ++ returned raises steps)
    by (by rewrite <- Hw).
  split; [done|]. split; [done|]. split; [done|]. intros Hret.
  destruct (all_return_spec raises steps Hret) as [Hcs Hnone].
  rewrite Htr, <- Hr. unfold outcome. by rewrite Hcs, Hnone.
Qed.

Lemma stop_no_grace_witness :
  let steps :=
    [ logger_info "*** Сервис gRPC остановлен ***";
      server_stop 0 (PyBool false) ] in
  trace (stop 0 all_return demo_host).2
    = trace demo_host ++ returned all_return steps ∧
  Ok () = outcome all_return steps ∧
  py_number (PyBool false) = Some 0%Z ∧
  ((∀ c, c ∈ steps → all_return c = false) →
   Ok () = Ok () ∧
   trace (stop 0 all_return demo_host).2 = trace demo_host ++ steps).
Proof.
  refine (stop_no_grace all_return demo_host 0 (initialized_obj 0) 0
            (Ok ()) _ _ _ _).
  - vm_compute. reflexivity.
  - reflexivity.
  - vm_compute. reflexivity.
Defined.

(** ** C8: [stop] before [run], and [stop] twice *)

(** C8, as amended.  On a constructed host, whether or not [run] was ever
    called, [stop] and a second [stop] after it each log the line and call
    [server.stop] with [grace=False] on the server of the host: [stop] keeps
    no record of the host being started or stopped.  Each of the two calls
    raises exactly when one of these two calls raises, never for a missing
    attribute, and both leave the class slot, the instance and the number of
    servers as they were.  When the calls return, both return. *)
Theorem stop_has_no_guard raises1 raises2 w self o s r1 w1 r2 w2 :
  heap w !! self = Some o → server o = Some s →
  stop self raises1 w = (r1, w1) →
  stop self raises2 w1 = (r2, w2) →
  (r1 = outcome raises1 (stop_calls s) ∧
   trace w1 = trace w ++ returned raises1 (stop_calls s)) ∧
  (r2 = outcome raises2 (stop_calls s) ∧
   trace w2 = trace w1 ++ returned raises2 (stop_calls s)) ∧
  (∀ a, r1 ≠ Raise (AttributeError a) ∧ r2 ≠ Raise (AttributeError a)) ∧
  (_instance w1, heap w1, servers w1) = (_instance w, heap w, servers w) ∧
  (_instance w2, heap w2, servers w2) = (_instance w, heap w, servers w) ∧
  ((∀ c, c ∈ stop_calls s → raises1 c = false ∧ raises2 c = false) →
   r1 = Ok () ∧ r2 = Ok () ∧
   trace w2 = trace w ++ stop_calls s ++ stop_calls s).
Proof.
  intros Hself Hs Hstop1 Hstop2.
  rewrite (stop_runs raises1 w self o s Hself Hs) in Hstop1.
  apply pair_equal_spec in Hstop1 as [<- <-].
  rewrite (stop_runs raises2 (with_trace w _) self o s Hself Hs) in Hstop2.
  apply pair_equal_spec in Hstop2 as [<- <-].
  cbn [with_trace trace _instance heap servers].
  split_and?; try done.
  - intros a. unfold outcome.
    by destruct (first_raise raises1 _), (first_raise raises2 _).
  - intros Hret.
    destruct (all_return_spec raises1 (stop_calls s)) as [Hcs1 Hnone1];
      [intros c Hc; by destruct (Hret c Hc)|].
    destruct (all_return_spec raises2 (stop_calls s)) as [Hcs2 Hnone2];
      [intros c Hc; by destruct (Hret c Hc)|].
    unfold outcome. rewrite Hcs1, Hcs2, Hnone1, Hnone2, <- app_assoc. done.
Qed.

Lemma stop_has_no_guard_witness :
  let w1 := (stop 0 all_return demo_host).2 in
  let w2 := (stop 0 all_return w1).2 in
  let r1 : result () := Ok () in
  let r2 : result () := Ok () in
  (r1 = outcome all_return (stop_calls 0) ∧
   trace w1 = trace demo_host ++ returned all_return (stop_calls 0)) ∧
  (r2 = outcome all_return (stop_calls 0) ∧
   trace w2 = trace w1 ++ returned all_return (stop_calls 0)) ∧
  (∀ a, r1 ≠ Raise (AttributeError a) ∧ r2 ≠ Raise (AttributeError a)) ∧
  (_instance w1, heap w1, servers w1)
    = (_instance demo_host, heap demo_host, servers demo_host) ∧
  (_instance w2, heap w2, servers w2)
    = (_instance demo_host, heap demo_host, servers demo_host) ∧
  ((∀ c, c ∈ stop_calls 0 → all_return c = false ∧ all_return c = false) →
   r1 = Ok () ∧ r2 = Ok () ∧
   trace w2 = trace demo_host ++ stop_calls 0 ++ stop_calls 0).
Proof.
  refine (stop_has_no_guard all_return all_return demo_host 0
            (initialized_obj 0) 0 _ _ _ _ _ _ _ _).
  - vm_compute. reflexivity.
  - reflexivity.
  - vm_compute. reflexivity.
  - vm_compute. reflexivity.
Defined.

(** C8 fails as stated: on the host of a process in which [run] was never
    called, and with every call returning, [stop] is not without effect: it
    logs that the service is stopped and calls [server.stop]. *)
Lemma stop_is_not_a_noop : ¬ stop_is_noop all_return demo_host 0.
Proof.
  intros [Hstop _]. apply (f_equal (λ p, length (trace p.2))) in Hstop.
  vm_compute in Hstop. discriminate Hstop.
Qed.

(** ** C9: the address cannot be bound *)

(** C9, as amended.  In a process whose host is not initialized, [Server()]
    leaves it to [add_insecure_port] to say whether the address can be
    bound.  When that call raises, [Server()] raises and returns no host:
    the calls made are at most those that come before the binding, so
    reflection is not enabled, and the instance is left without
    [initialized]; when the calls before the binding return, the exception
    is the one of the binding.  When no call raises, [Server()] returns the
    initialized host whatever was bound before: the configured address is
    bound once more. *)
Theorem construction_trusts_binding `{Settings, Descriptors} raises w r w' :
  not_initialized w →
  Server_call raises w = (r, w') →
  let s := servers w in
  let before :=
    tracing_calls ++
    [ ThreadPoolExecutor 10;
      AuthInterceptor_init SECRET_KEY;
      aio_server s 10 [AuthInterceptor SECRET_KEY] ] in
  (raises (add_insecure_port s configured_address) = true →
   (∃ c, r = Raise (ExternalError c) ∧ raises c = true) ∧
   (∃ evs, trace w' = trace w ++ evs ∧ evs `prefix_of` before) ∧
   (∃ self o', _instance w' = Some self ∧ heap w' !! self = Some o' ∧
               initialized o' = None) ∧
   ((∀ c, c ∈ before → raises c = false) →
    r = Raise (ExternalError (add_insecure_port s configured_address)))) ∧
  ((∀ c, c ∈ init_calls s → raises c = false) →
   (∃ self, r = Ok self ∧ _instance w' = Some self ∧
            heap w' !! self = Some (initialized_obj s)) ∧
   trace w' = trace w ++ init_calls s ∧
   occurrences (binds_address configured_address) (trace w')
     = S (occurrences (binds_address configured_address) (trace w))).
Proof.
  intros Hw Hcall s before.
  destruct (Server_call_body raises w r w' Hw Hcall)
    as (self & o' & Hr & Htr & Hin & Hself & Hok & Hfail).
  fold s in Hr, Htr, Hok, Hfail.
  assert (Hsplit : init_calls s =
    before ++ add_insecure_port s configured_address
           :: [enable_server_reflection SERVICE_NAMES s]) by done.
  unfold construct_outcome in Hr. split.
  - intros Hbind.
    assert (Hsome : first_raise raises (init_calls s) ≠ None).
    { apply (first_raise_elem _ _ (add_insecure_port s configured_address));
        [|done].
      rewrite Hsplit. apply elem_of_app. right. left. }
    split_and?.
    + destruct (first_raise raises (init_calls s)) as [c|] eqn:Hfirst; [|done].
      exists c. split; [done|]. by apply first_raise_Some in Hfirst as [? _].
    + exists (returned raises before). split.
      * by rewrite Htr, Hsplit, returned_app_raise.
      * apply returned_prefix.
    + exists self, o'. split_and?; [done..|]. by apply Hfail.
    + intros Hbefore. rewrite Hr, Hsplit, first_raise_app by done.
      simpl. by rewrite Hbind.
  - intros Hret. destruct (all_return_spec raises _ Hret) as [Hcs Hnone].
    rewrite Hnone in Hr. rewrite Hcs in Htr. split_and?.
    + exists self. by rewrite <- (Hok Hnone).
    + done.
    + rewrite Htr, Hsplit, !occurrences_app.
      rewrite (occurrences_none _ before) by (intros x Hx; each_element Hx).
      unfold occurrences at 2. simpl. rewrite bool_decide_eq_true_2 by done.
      simpl. lia.
Qed.

Lemma construction_trusts_binding_witness :
  let r : result ref :=
    Raise (ExternalError (add_insecure_port 0 configured_address)) in
  let w' := (Server_call address_in_use fresh_process).2 in
  let s := servers fresh_process in
  let before :=
    tracing_calls ++
    [ ThreadPoolExecutor 10;
      AuthInterceptor_init SECRET_KEY;
      aio_server s 10 [AuthInterceptor SECRET_KEY] ] in
  (address_in_use (add_insecure_port s configured_address) = true →
   (∃ c, r = Raise (ExternalError c) ∧ address_in_use c = true) ∧
   (∃ evs, trace w' = trace fresh_process ++ evs ∧ evs `prefix_of` before) ∧
   (∃ self o', _instance w' = Some self ∧ heap w' !! self = Some o' ∧
               initialized o' = None) ∧
   ((∀ c, c ∈ before → address_in_use c = false) →
    r = Raise (ExternalError (add_insecure_port s configured_address)))) ∧
  ((∀ c, c ∈ init_calls s → address_in_use c = false) →
   (∃ self, r = Ok self ∧ _instance w' = Some self ∧
            heap w' !! self = Some (initialized_obj s)) ∧
   trace w' = trace fresh_process ++ init_calls s ∧
   occurrences (binds_address configured_address) (trace w')
     = S (occurrences (binds_address configured_address)
            (trace fresh_process))).
Proof.
  refine (construction_trusts_binding address_in_use fresh_process _ _ _ _).
  - exact I.
  - vm_compute. reflexivity.
Defined.

(** C9 fails as stated: when the first [Server()] of a process has bound
    the configured address and then raised in enabling reflection, the
    address is bound, yet the next [Server()] returns the host when its
    calls return. *)
Lemma bound_address_is_bound_again :
  ¬ bound_address_is_fatal all_return
      (Server_call reflection_fails fresh_process).2.
Proof.
  intros Hfatal. destruct Hfatal as [e He].
  - vm_compute. lia.
  - vm_compute in He. discriminate He.
Qed.

(** ** C10: a construction that raised is tried again *)

(** C10.  When [Server()] raises in a process without an instance, the
    instance it created stays in the class slot, without [initialized].  The
    next [Server()] allocates nothing: it runs the body of [__init__] from
    its first call on that same instance, and returns it when no call
    raises. *)
Theorem failed_construction_is_retried `{Settings, Descriptors}
    raises1 raises2 w e w1 r2 w2 :
  _instance w = None →
  Server_call raises1 w = (Raise e, w1) →
  Server_call raises2 w1 = (r2, w2) →
  let self := length (heap w) in
  (_instance w1 = Some self ∧
   ∃ o1, heap w1 = heap w ++ [o1] ∧ initialized o1 = None) ∧
  (_instance w2 = Some self ∧ length (heap w2) = length (heap w1)) ∧
  trace w2 = trace w1 ++ returned raises2 (init_calls (servers w1)) ∧
  r2 = construct_outcome raises2 (init_calls (servers w1)) self ∧
  ((∀ c, c ∈ init_calls (servers w1) → raises2 c = false) →
   r2 = Ok self ∧
   trace w2 = trace w1 ++ init_calls (servers w1) ∧
   heap w2 = heap w ++ [initialized_obj (servers w1)]).
Proof.
  intros Hinst Hcall1 Hcall2 self.
  destruct (Server_call_first raises1 w _ w1 Hinst Hcall1)
    as (Hr1 & _ & Hin1 & _ & o1 & Hheap1 & _ & Hfail1).
  assert (Hi1 : initialized o1 = None).
  { apply Hfail1. intros Hnone. unfold construct_outcome in Hr1.
    by rewrite Hnone in Hr1. }
  assert (Hself : heap w1 !! self = Some o1).
  { rewrite Hheap1. by apply list_lookup_middle. }
  destruct (Server_call_reruns raises2 w1 self o1 r2 w2 Hin1 Hself Hi1 Hcall2)
    as (Hr2 & Htr2 & Hin2 & _ & o2 & Hheap2 & Hok2 & _).
  split_and?; try done.
  - by exists o1.
  - by rewrite Hheap2, length_insert.
  - intros Hret.
    destruct (all_return_spec raises2 _ Hret) as [Hcs Hnone].
    destruct (Hok2 Hnone) as [-> _].
    rewrite Hr2, Htr2, Hcs. unfold construct_outcome. rewrite Hnone.
    split_and?; [done..|].
    rewrite Hheap2, Hheap1. unfold self.
    rewrite <- (Nat.add_0_r (length (heap w))), insert_app_r. done.
Qed.

Lemma failed_construction_is_retried_witness :
  let w1 := (Server_call address_in_use fresh_process).2 in
  let r2 := Ok 0 in
  let w2 := (Server_call all_return w1).2 in
  let self := length (heap fresh_process) in
  (_instance w1 = Some self ∧
   ∃ o1, heap w1 = heap fresh_process ++ [o1] ∧ initialized o1 = None) ∧
  (_instance w2 = Some self ∧ length (heap w2) = length (heap w1)) ∧
  trace w2 = trace w1 ++ returned all_return (init_calls (servers w1)) ∧
  r2 = construct_outcome all_return (init_calls (servers w1)) self ∧
  ((∀ c, c ∈ init_calls (servers w1) → all_return c = false) →
   r2 = Ok self ∧
   trace w2 = trace w1 ++ init_calls (servers w1) ∧
   heap w2 = heap fresh_process ++ [initialized_obj (servers w1)]).
Proof.
  refine (failed_construction_is_retried address_in_use all_return
            fresh_process
            (ExternalError (add_insecure_port 0 configured_address))
            _ _ _ _ _ _).
  - reflexivity.
  - vm_compute. reflexivity.
  - vm_compute. reflexivity.
Defined.

(** * Further properties of the host *)

(** ** Calls on a constructed host *)

Lemma invoke_runs `{Settings, Descriptors} m self raises w s :
  constructed w self s →
  invoke m self raises w =
    (outcome raises (method_calls m s),
     with_trace w (trace w ++ returned raises (method_calls m s))).
Proof.
  intros [Hinst Hself]. destruct m; simpl.
  - cbv [mbind M_bind mret M_ret].
    rewrite (Server_call_initialized raises w self _ true Hinst Hself eq_refl).
    unfold outcome, with_trace. simpl. rewrite app_nil_r. by destruct w.
  - by apply (register_runs raises w self (initialized_obj s) s).
  - by apply (run_runs raises w self (initialized_obj s) s configured_address).
  - by apply (stop_runs raises w self (initialized_obj s) s).
Qed.

Lemma session_runs `{Settings, Descriptors} ops self w s rs w' :
  constructed w self s →
  session ops self w = (rs, w') →
  w' = with_trace w (trace w ++ session_calls ops s) ∧
  Forall2 (λ op r, r = outcome op.2 (method_calls op.1 s)) ops rs.
Proof.
  revert w rs w'. induction ops as [|[m raises] ops IH]; intros w rs w' Hw.
  - intros [= <- <-]. split; [|constructor].
    unfold with_trace. simpl. rewrite app_nil_r. by destruct w.
  - simpl. rewrite (invoke_runs m self raises w s Hw).
    destruct (session ops self _) as [rs1 w2] eqn:Hrest. intros [= <- <-].
    apply IH in Hrest as [-> Hrs]; [|exact Hw]. split.
    + unfold with_trace. simpl. by rewrite app_assoc.
    + by constructor.
Qed.

Lemma session_calls_all `{Settings, Descriptors} (P : call → Prop) ops s :
  (∀ m c, c ∈ method_calls m s → P c) →
  ∀ c, c ∈ session_calls ops s → P c.
Proof.
  intros HP. induction ops as [|[m raises] ops IH]; simpl; intros c Hc.
  - by apply elem_of_nil in Hc.
  - apply elem_of_app in Hc as [Hc|Hc]; [|by apply IH].
    apply (HP m). eapply elem_of_prefix; [done|apply returned_prefix].
Qed.

Lemma outcome_cases raises cs :
  outcome raises cs = Ok () ∨
  ∃ c, outcome raises cs = Raise (ExternalError c) ∧ c ∈ cs ∧ raises c = true.
Proof.
  unfold outcome. destruct (first_raise raises cs) as [c|] eqn:Hfirst.
  - right. exists c. split; [done|].
    apply first_raise_Some in Hfirst as [Hc [rest Hrest]]. split; [|done].
    rewrite Hrest. apply elem_of_app. right. left.
  - by left.
Qed.

(** X1.  Once [Server()] has returned, no sequence of [Server()],
    [register], [run] and [stop], whatever raises in them, changes the
    class slot, the attributes of the host or the number of servers
    created: the host keeps the one server of its construction. *)
Theorem session_keeps_host `{Settings, Descriptors} ops self w s rs w' :
  constructed w self s →
  session ops self w = (rs, w') →
  _instance w' = _instance w ∧ heap w' = heap w ∧ servers w' = servers w ∧
  constructed w' self s.
Proof.
  intros Hw Hrun.
  destruct (session_runs ops self w s rs w' Hw Hrun) as [-> _]. done.
Qed.

Lemma session_keeps_host_witness :
  let w' := (session demo_session 0 demo_host).2 in
  _instance w' = _instance demo_host ∧ heap w' = heap demo_host ∧
  servers w' = servers demo_host ∧ constructed w' 0 0.
Proof.
  refine (session_keeps_host demo_session 0 demo_host 0
            [Ok (); Ok (); Ok (); Ok ()] _ _ _).
  - split; vm_compute; reflexivity.
  - vm_compute. reflexivity.
Defined.

(** X2.  Once [Server()] has returned, a call of [Server()], [register],
    [run] or [stop] either returns or raises the exception of an external
    call of that method which raised: it never fails on a missing
    attribute. *)
Theorem session_raises_only_external `{Settings, Descriptors}
    ops self w s rs w' r :
  constructed w self s →
  session ops self w = (rs, w') →
  r ∈ rs →
  r = Ok () ∨
  ∃ m raises c, (m, raises) ∈ ops ∧ c ∈ method_calls m s ∧
                raises c = true ∧ r = Raise (ExternalError c).
Proof.
  intros Hw Hrun Hr.
  destruct (session_runs ops self w s rs w' Hw Hrun) as [_ Hrs].
  apply list_elem_of_lookup_1 in Hr as [i Hi].
  destruct (Forall2_lookup_r _ _ _ _ _ Hrs Hi) as ([m raises] & Hop & ->).
  simpl. destruct (outcome_cases raises (method_calls m s))
    as [->|(c & -> & Hc & Hraises)]; [by left|right].
  exists m, raises, c. split_and?; try done.
  by eapply list_elem_of_lookup_2.
Qed.

Lemma session_raises_only_external_witness :
  let r : result () := Raise (ExternalError (server_start 0)) in
  r = Ok () ∨
  ∃ m raises c, (m, raises) ∈ [(call_run, λ c, is_start c)] ∧
                c ∈ method_calls m 0 ∧
                raises c = true ∧ r = Raise (ExternalError c).
Proof.
  refine (session_raises_only_external [(call_run, λ c, is_start c)] 0
            demo_host 0 [Raise (ExternalError (server_start 0))]
            (session [(call_run, λ c, is_start c)] 0 demo_host).2 _ _ _ _).
  - split; vm_compute; reflexivity.
  - vm_compute. reflexivity.
  - left.
Defined.

(** X3.  Once [Server()] has returned, no sequence of [Server()],
    [register], [run] and [stop] installs a tracer provider, creates a
    server, binds a port or enables reflection again: the port stays bound
    once and the names given to reflection stay those of the
    construction. *)
Theorem session_never_reinitializes `{Settings, Descriptors}
    ops self w s rs w' :
  constructed w self s →
  session ops self w = (rs, w') →
  occurrences is_tracing_setup (trace w')
    = occurrences is_tracing_setup (trace w) ∧
  occurrences is_server_creation (trace w')
    = occurrences is_server_creation (trace w) ∧
  occurrences is_port_binding (trace w')
    = occurrences is_port_binding (trace w) ∧
  occurrences is_reflection (trace w')
    = occurrences is_reflection (trace w).
Proof.
  intros Hw Hrun.
  destruct (session_runs ops self w s rs w' Hw Hrun) as [-> _].
  cbn [with_trace trace]. rewrite !occurrences_app.
  assert (Hnone : ∀ c, c ∈ session_calls ops s →
            is_tracing_setup c = false ∧ is_server_creation c = false ∧
            is_port_binding c = false ∧ is_reflection c = false).
  { apply session_calls_all. intros m c Hc. destruct m; each_element Hc. }
  rewrite !(occurrences_none _ (session_calls ops s));
    [lia|intros c Hc; destruct (Hnone c Hc) as (? & ? & ? & ?); done..].
Qed.

Lemma session_never_reinitializes_witness :
  let w' := (session demo_session 0 demo_host).2 in
  occurrences is_tracing_setup (trace w')
    = occurrences is_tracing_setup (trace demo_host) ∧
  occurrences is_server_creation (trace w')
    = occurrences is_server_creation (trace demo_host) ∧
  occurrences is_port_binding (trace w')
    = occurrences is_port_binding (trace demo_host) ∧
  occurrences is_reflection (trace w')
    = occurrences is_reflection (trace demo_host).
Proof.
  refine (session_never_reinitializes demo_session 0 demo_host 0
            [Ok (); Ok (); Ok (); Ok ()] _ _ _).
  - split; vm_compute; reflexivity.
  - vm_compute. reflexivity.
Defined.

(** X4.  Once [Server()] has returned, every call that [Server()],
    [register], [run] and [stop] make about a server is about the server
    of the host: services are bound on it, and it is the one started,
    awaited and stopped. *)
Theorem session_targets_host_server `{Settings, Descriptors}
    ops self w s rs w' :
  constructed w self s →
  session ops self w = (rs, w') →
  ∃ evs, trace w' = trace w ++ evs ∧
         ∀ c s', c ∈ evs → server_of c = Some s' → s' = s.
Proof.
  intros Hw Hrun.
  destruct (session_runs ops self w s rs w' Hw Hrun) as [-> _].
  exists (session_calls ops s). split; [done|]. intros c s' Hc.
  revert c Hc s'.
  apply (session_calls_all (λ c, ∀ s', server_of c = Some s' → s' = s)).
  intros m c Hc s' Hs'.
  destruct m; each_element Hc; by injection Hs'.
Qed.

Lemma session_targets_host_server_witness :
  let w' := (session demo_session 0 demo_host).2 in
  ∃ evs, trace w' = trace demo_host ++ evs ∧
         ∀ c s', c ∈ evs → server_of c = Some s' → s' = 0.
Proof.
  refine (session_targets_host_server demo_session 0 demo_host 0
            [Ok (); Ok (); Ok (); Ok ()] _ _ _).
  - split; vm_compute; reflexivity.
  - vm_compute. reflexivity.
Defined.

(** ** An instance left by a construction that raised *)

Lemma Server__init___attrs `{Settings, Descriptors} raises w self o c w' :
  heap w !! self = Some o → initialized o = None →
  Server__init__ self raises w = (Raise (ExternalError c), w') →
  ∃ o', heap w' = <[self := o']> (heap w) ∧
        initialized o' = None ∧
        server o' = (if is_port_binding c || is_reflection c
                     then Some (servers w) else server o) ∧
        SERVER_ADDRESS o' = (if is_tracing_call c
                             then SERVER_ADDRESS o
                             else Some configured_address).
Proof.
  destruct w as [inst hp n tr], o as [a s i].
  cbn [heap trace servers _instance initialized].
  intros Hself -> Hrun.
  unfold Server__init__, hasattr_initialized in Hrun.
  cbv [mbind M_bind mret M_ret getobj] in Hrun. cbn [heap] in Hrun.
  rewrite Hself in Hrun. cbn in Hrun.
  cbv [mbind M_bind mret M_ret ext call_aio_server getattr getobj setobj
       raise] in Hrun.
  repeat match type of Hrun with
  | context [if raises ?c then _ else _] =>
      destruct (raises c) eqn:?; cbn in Hrun;
      repeat (progress (rewrite ?list_lookup_alter_eq, ?Hself in Hrun;
                        cbn in Hrun))
  end.
  all: try discriminate Hrun.
  all: apply pair_equal_spec in Hrun as [[= <-] <-].
  all: cbn [heap is_port_binding is_reflection is_tracing_call orb].
  all: rewrite ?list_alter_alter_eq.
  all: first
    [ erewrite alter_lookup by exact Hself; eexists; split; [reflexivity|]
    | eexists; split; [symmetry; apply list_insert_id, Hself|] ].
  all: done.
Qed.

(** X5.  When the first [Server()] of a process raises, the instance left in
    the class slot has no [initialized]; it has the attribute [server] only
    when the exception came from binding the port or from enabling
    reflection, and the attribute [SERVER_ADDRESS] only when the exception
    came after the tracing setup. *)
Theorem failed_construction_attributes `{Settings, Descriptors}
    raises w c w1 :
  _instance w = None →
  Server_call raises w = (Raise (ExternalError c), w1) →
  ∃ o1, _instance w1 = Some (length (heap w)) ∧
        heap w1 = heap w ++ [o1] ∧
        initialized o1 = None ∧
        server o1 = (if is_port_binding c || is_reflection c
                     then Some (servers w) else None) ∧
        SERVER_ADDRESS o1 = (if is_tracing_call c
                             then None else Some configured_address).
Proof.
  intros Hinst Hcall.
  unfold Server_call, Server__new__, read_instance, object__new__,
    write_instance in Hcall.
  cbv [mbind M_bind mret M_ret] in Hcall. rewrite Hinst in Hcall.
  cbn [heap servers trace _instance] in Hcall.
  set (w0 := {| _instance := Some (length (heap w));
                heap := heap w ++ [empty_obj];
                servers := servers w; trace := trace w |}) in Hcall.
  assert (Hself : heap w0 !! length (heap w) = Some empty_obj)
    by (by apply list_lookup_middle).
  destruct (Server__init__ (length (heap w)) raises w0)
    as [[[]|e] w0'] eqn:Hinit; [done|].
  apply pair_equal_spec in Hcall as [[= ->] ->].
  assert (Hin1 : _instance w1 = Some (length (heap w))).
  { by destruct (Server__init___runs raises w0 _ empty_obj _ _
                   Hself eq_refl Hinit) as (_ & _ & ? & _). }
  destruct (Server__init___attrs raises w0 _ empty_obj _ _
              Hself eq_refl Hinit) as (o1 & Hheap & Hi & Hs & Ha).
  exists o1. split_and?; try done.
  rewrite Hheap. cbn [heap w0].
  rewrite <- (Nat.add_0_r (length (heap w))), insert_app_r. done.
Qed.

Lemma failed_construction_attributes_witness :
  ∃ o1, _instance (Server_call tracing_fails fresh_process).2
          = Some (length (heap fresh_process)) ∧
        heap (Server_call tracing_fails fresh_process).2
          = heap fresh_process ++ [o1] ∧
        initialized o1 = None ∧
        server o1 = (if is_port_binding set_tracer_provider
                        || is_reflection set_tracer_provider
                     then Some (servers fresh_process) else None) ∧
        SERVER_ADDRESS o1 = (if is_tracing_call set_tracer_provider
                             then None else Some configured_address).
Proof.
  refine (failed_construction_attributes tracing_fails fresh_process
            set_tracer_provider _ _ _).
  - reflexivity.
  - vm_compute. reflexivity.
Defined.

(** ** Methods on an instance without [server] *)

(** X6.  On an instance that has no attribute [server], [stop] logs its
    message and then raises [AttributeError]: it stops nothing. *)
Theorem stop_without_server raises w self o :
  heap w !! self = Some o → server o = None →
  raises (logger_info "*** Сервис gRPC остановлен ***") = false →
  stop self raises w =
    (Raise (AttributeError "server"),
     with_trace w (trace w ++ [logger_info "*** Сервис gRPC остановлен ***"])).
Proof.
  intros Hself Hs Hlog. destruct w as [inst hp n tr], o as [a s i].
  simpl in *; subst s. unfold stop.
  cbv [mbind M_bind mret M_ret ext getattr getobj raise with_trace].
  rewrite Hlog. cbn. rewrite Hself. done.
Qed.

Lemma stop_without_server_witness :
  stop 0 all_return (Server_call tracing_fails fresh_process).2 =
    (Raise (AttributeError "server"),
     with_trace (Server_call tracing_fails fresh_process).2
       (trace (Server_call tracing_fails fresh_process).2
        ++ [logger_info "*** Сервис gRPC остановлен ***"])).
Proof.
  refine (stop_without_server all_return
            (Server_call tracing_fails fresh_process).2 0 empty_obj _ _ _).
  - vm_compute. reflexivity.
  - reflexivity.
  - reflexivity.
Defined.

(** X7.  On an instance that has no attribute [server], [run] has the table
    created and constructs the first servicer before it raises
    [AttributeError]: no service is bound and no server is started. *)
Theorem run_without_server raises w self o :
  heap w !! self = Some o → server o = None →
  raises (Order_create_table true) = false →
  raises (servicer_init services.OrderService) = false →
  run self raises w =
    (Raise (AttributeError "server"),
     with_trace w (trace w ++ [Order_create_table true;
                               servicer_init services.OrderService])).
Proof.
  intros Hself Hs Htable Hinit. destruct w as [inst hp n tr], o as [a s i].
  simpl in *; subst s. unfold run, register, add_to_server.
  cbv [mbind M_bind mret M_ret ext getattr getobj raise with_trace].
  rewrite Htable. cbn. rewrite Hinit. cbn. rewrite Hself. cbn.
  by rewrite <- app_assoc.
Qed.

Lemma run_without_server_witness :
  run 0 all_return (Server_call tracing_fails fresh_process).2 =
    (Raise (AttributeError "server"),
     with_trace (Server_call tracing_fails fresh_process).2
       (trace (Server_call tracing_fails fresh_process).2
        ++ [Order_create_table true; servicer_init services.OrderService])).
Proof.
  refine (run_without_server all_return
            (Server_call tracing_fails fresh_process).2 0 empty_obj
            _ _ _ _).
  - vm_compute. reflexivity.
  - reflexivity.
  - reflexivity.
  - reflexivity.
Defined.

(** ** A construction retried after reflection could not be enabled *)

(** X8.  When the first [Server()] of a process raises in enabling
    reflection and the next [Server()] returns, the configured address has
    been bound on two servers: on the server of the first construction,
    which the host no longer refers to, and on the server of the second,
    which the host keeps. *)
Theorem retry_binds_address_again `{Settings, Descriptors}
    raises1 raises2 w names s0 w1 self w2 :
  _instance w = None →
  Server_call raises1 w
    = (Raise (ExternalError (enable_server_reflection names s0)), w1) →
  Server_call raises2 w1 = (Ok self, w2) →
  let s := servers w in
  trace w2 = trace w ++ before_reflection s ++ init_calls (S s) ∧
  add_insecure_port s configured_address ∈ trace w2 ∧
  add_insecure_port (S s) configured_address ∈ trace w2 ∧
  heap w2 = heap w ++ [initialized_obj (S s)].
Proof.
  intros Hinst Hcall1 Hcall2 s.
  destruct (Server_call_first raises1 w _ w1 Hinst Hcall1)
    as (Hr1 & Htr1 & Hin1 & Hsrv1 & o1 & Hheap1 & _ & Hfail1).
  fold s in Hr1, Htr1, Hsrv1, Hfail1. unfold construct_outcome in Hr1.
  destruct (first_raise raises1 (init_calls s)) as [c|] eqn:Hfirst; [|done].
  injection Hr1 as <-.
  apply first_raise_Some in Hfirst as [_ [rest Hrest]].
  assert (Hret : returned raises1 (init_calls s) = before_reflection s).
  { change (init_calls s) with
      (before_reflection s ++ enable_server_reflection SERVICE_NAMES s :: [])
      in Hrest at 1.
    symmetry in Hrest.
    destruct (split_at_unique is_reflection _ _ _ _ _ _ Hrest eq_refl)
      as (? & _); [|by intros x ?%elem_of_nil|done].
    intros x Hx. each_element Hx. }
  rewrite Hret in Htr1, Hsrv1.
  assert (Hs1 : servers w1 = S s).
  { rewrite Hsrv1. unfold occurrences. cbn. lia. }
  assert (Hself : heap w1 !! length (heap w) = Some o1).
  { rewrite Hheap1. by apply list_lookup_middle. }
  destruct (Server_call_reruns raises2 w1 _ o1 _ w2 Hin1 Hself
              (Hfail1 ltac:(done)) Hcall2)
    as (Hr2 & Htr2 & _ & _ & o2 & Hheap2 & Hok2 & _).
  rewrite Hs1 in Hr2, Htr2, Hok2. unfold construct_outcome in Hr2.
  destruct (first_raise raises2 (init_calls (S s))) eqn:Hfirst2; [done|].
  apply first_raise_None in Hfirst2 as [Hret2 _].
  destruct (Hok2 eq_refl) as [-> _].
  assert (Htr : trace w2 = trace w ++ before_reflection s ++ init_calls (S s)).
  { by rewrite Htr2, Htr1, Hret2, <- app_assoc. }
  split_and?; [done| | |].
  - rewrite Htr. apply elem_of_app. right. apply elem_of_app. left.
    apply elem_of_app. right. do 3 right. left.
  - rewrite Htr. apply elem_of_app. right. apply elem_of_app. right.
    apply elem_of_app. right. do 3 right. left.
  - rewrite Hheap2, Hheap1.
    rewrite <- (Nat.add_0_r (length (heap w))), insert_app_r. done.
Qed.

Lemma retry_binds_address_again_witness :
  let w2 := (Server_call all_return
               (Server_call reflection_fails fresh_process).2).2 in
  let s := servers fresh_process in
  trace w2 = trace fresh_process ++ before_reflection s ++ init_calls (S s) ∧
  add_insecure_port s configured_address ∈ trace w2 ∧
  add_insecure_port (S s) configured_address ∈ trace w2 ∧
  heap w2 = heap fresh_process ++ [initialized_obj (S s)].
Proof.
  refine (retry_binds_address_again reflection_fails all_return fresh_process
            SERVICE_NAMES 0 (Server_call reflection_fails fresh_process).2
            0 _ _ _ _).
  - reflexivity.
  - vm_compute. reflexivity.
  - vm_compute. reflexivity.
Defined.

(** ** What comes before the creation of a server *)

Lemma creation_follows_setup_app `{Settings, Descriptors} tr raises s0 :
  creation_follows_setup tr →
  creation_follows_setup (tr ++ returned raises (init_calls s0)).
Proof.
  intros Htr pre s n ics post Heq.
  destruct (returned_prefix raises (init_calls s0)) as [k Hk].
  apply List.app_eq_app in Heq as [l [[-> Hl]|[-> Hl]]].
  - destruct l as [|c l].
    + rewrite app_nil_l in Hl. rewrite <- Hl in Hk.
      cbv [init_calls tracing_calls] in Hk. discriminate Hk.
    + rewrite <- app_comm_cons in Hl. injection Hl as <- _.
      by apply (Htr pre s n ics l).
  - rewrite Hl, <- app_assoc, <- app_comm_cons in Hk.
    change (init_calls s0) with
      ((tracing_calls ++ [ThreadPoolExecutor 10;
                          AuthInterceptor_init SECRET_KEY])
       ++ aio_server s0 10 [AuthInterceptor SECRET_KEY]
       :: [add_insecure_port s0 configured_address;
           enable_server_reflection SERVICE_NAMES s0]) in Hk.
    symmetry in Hk.
    destruct (split_at_unique is_server_creation _ _ _ _ _ _ Hk eq_refl)
      as (-> & _).
    + intros x Hx. each_element Hx.
    + intros x Hx. each_element Hx.
    + exists tr. by rewrite app_assoc.
Qed.

Lemma constructions_creation `{Settings, Descriptors} envs w rs w' :
  singleton_inv w → creation_follows_setup (trace w) →
  constructions envs w = (rs, w') →
  creation_follows_setup (trace w').
Proof.
  revert w rs w'. induction envs as [|raises envs IH]; intros w rs w' Hinv Hw.
  - by intros [= <- <-].
  - simpl. destruct (Server_call raises w) as [r w1] eqn:Hcall.
    destruct (constructions envs w1) as [rs1 w2] eqn:Hrest.
    intros [= <- <-].
    destruct (Server_call_keeps_inv raises w r w1 Hinv Hcall) as [Hinv1 _].
    apply (IH w1 rs1 w2 Hinv1); [|done].
    destruct (Server_call_trace raises w r w1 Hinv Hcall) as [->| ->];
      [done|by apply creation_follows_setup_app].
Qed.

(** X9.  For every sequence of evaluations of [Server()] in a fresh
    process, whatever raises in them: each creation of a server comes
    directly after a complete tracing setup (the two instrumentors
    included), the creation of a pool of 10 workers and the construction of
    the [AuthInterceptor] with [SECRET_KEY]. *)
Theorem server_created_after_setup `{Settings, Descriptors}
    envs rs w pre s n ics post :
  constructions envs fresh_process = (rs, w) →
  trace w = pre ++ aio_server s n ics :: post →
  ∃ pre0, pre = pre0 ++ tracing_calls
                     ++ [ThreadPoolExecutor 10;
                         AuthInterceptor_init SECRET_KEY].
Proof.
  intros Hrun.
  apply (constructions_creation envs fresh_process rs w fresh_process_inv);
    [|done].
  intros pre' s' n' ics' post' Heq. by destruct pre'.
Qed.

Lemma server_created_after_setup_witness :
  ∃ pre0, before_reflection 0 ++ tracing_calls
          ++ [ThreadPoolExecutor 10; AuthInterceptor_init SECRET_KEY]
          = pre0 ++ tracing_calls
                 ++ [ThreadPoolExecutor 10; AuthInterceptor_init SECRET_KEY].
Proof.
  refine (server_created_after_setup [reflection_fails; all_return]
            [Raise (ExternalError (enable_server_reflection SERVICE_NAMES 0));
             Ok 0]
            (constructions [reflection_fails; all_return] fresh_process).2
            _ 1 10 [AuthInterceptor SECRET_KEY]
            [add_insecure_port 1 configured_address;
             enable_server_reflection SERVICE_NAMES 1] _ _).
  - vm_compute. reflexivity.
  - vm_compute. reflexivity.
Defined.

(** ** The line logged by [run] *)

Lemma start_message_in_method `{Settings, Descriptors} meth raises s p m q :
  returned raises (method_calls meth s) = p ++ logger_info m :: q →
  m ≠ "*** Сервис gRPC остановлен ***" →
  m = start_message configured_address ∧
  (∀ svc impl, (svc, impl) ∈ registry →
     add_servicer_to_server svc impl s ∈ p) ∧
  server_start s ∈ p.
Proof.
  intros Hret Hm.
  destruct (returned_prefix raises (method_calls meth s)) as [k Hk].
  rewrite Hret, <- app_assoc, <- app_comm_cons in Hk.
  destruct meth; cbn [method_calls] in Hk.
  - by destruct p.
  - exfalso.
    assert (Hin : logger_info m ∈ register_calls s).
    { rewrite Hk. apply elem_of_app. right. left. }
    each_element Hin.
  - change (run_calls s configured_address) with
      (([Order_create_table true] ++ register_calls s ++ [server_start s])
       ++ logger_info (start_message configured_address)
       :: [server_wait_for_termination s]) in Hk.
    symmetry in Hk.
    destruct (split_at_unique is_log _ _ _ _ _ _ Hk eq_refl)
      as (-> & [= ->] & _).
    { intros x Hx. each_element Hx. }
    { intros x Hx. each_element Hx. }
    split_and?; [done| |].
    + intros svc impl Hreg. unfold registry in Hreg.
      repeat (apply elem_of_cons in Hreg as [[= -> ->]|Hreg]);
        [..|by apply elem_of_nil in Hreg]; cbn.
      * do 2 right. left.
      * do 4 right. left.
      * do 6 right. left.
      * do 8 right. left.
    + cbn. do 9 right. left.
  - exfalso.
    change (stop_calls s) with
      ([] ++ logger_info "*** Сервис gRPC остановлен ***"
       :: [server_stop s (PyBool false)]) in Hk.
    symmetry in Hk.
    destruct (split_at_unique is_log _ _ _ _ _ _ Hk eq_refl)
      as (_ & [= ->] & _); [by intros x ?%elem_of_nil| |done].
    intros x Hx. each_element Hx.
Qed.

Lemma start_message_in_session `{Settings, Descriptors} ops s p m q :
  session_calls ops s = p ++ logger_info m :: q →
  m ≠ "*** Сервис gRPC остановлен ***" →
  m = start_message configured_address ∧
  (∀ svc impl, (svc, impl) ∈ registry →
     add_servicer_to_server svc impl s ∈ p) ∧
  server_start s ∈ p.
Proof.
  revert p. induction ops as [|[meth raises] ops IH]; intros p Heq Hm.
  - by destruct p.
  - simpl in Heq.
    apply List.app_eq_app in Heq as [l [[Hblock Hrest]|[-> Hrest]]].
    + destruct l as [|c l].
      * symmetry in Hrest.
        destruct (IH [] Hrest Hm) as (_ & _ & Hstart).
        by apply elem_of_nil in Hstart.
      * rewrite <- app_comm_cons in Hrest. injection Hrest as <- _.
        by apply (start_message_in_method meth raises s p m l).
    + destruct (IH l Hrest Hm) as (-> & Hreg & Hstart).
      split_and?; [done| |].
      * intros svc impl Hin. apply elem_of_app. right. by apply Hreg.
      * apply elem_of_app. by right.
Qed.

(** X10.  In a process that constructs the host and then makes any
    sequence of [Server()], [register], [run] and [stop] calls on it,
    whatever raises in them: every line logged other than the line of
    [stop] is the start message of [run] for the configured address, and it
    comes after that address was bound on the server of the host, after
    every service of the registry was bound on that server and after that
    server was started. *)
Theorem start_message_after_start `{Settings, Descriptors}
    raises self w1 ops rs w' pre m post :
  Server_call raises fresh_process = (Ok self, w1) →
  session ops self w1 = (rs, w') →
  trace w' = pre ++ logger_info m :: post →
  m ≠ "*** Сервис gRPC остановлен ***" →
  m = start_message configured_address ∧
  add_insecure_port 0 configured_address ∈ pre ∧
  (∀ svc impl, (svc, impl) ∈ registry →
     add_servicer_to_server svc impl 0 ∈ pre) ∧
  server_start 0 ∈ pre.
Proof.
  intros Hcall Hrun Htrace Hm.
  destruct (Server_call_returns raises fresh_process self w1 eq_refl Hcall)
    as (-> & -> & _).
  cbn [fresh_process heap servers trace length app] in Hrun.
  assert (Htr : trace w' = init_calls 0 ++ session_calls ops 0).
  { eapply session_runs in Hrun as [Hw' _]; [|by split]. by rewrite Hw'. }
  rewrite Htr in Htrace.
  apply List.app_eq_app in Htrace as [l [[Hinit Hrest]|[-> Hrest]]].
  - exfalso. destruct l as [|c l].
    + symmetry in Hrest.
      destruct (start_message_in_session ops 0 [] m post Hrest Hm)
        as (_ & _ & Hstart).
      by apply elem_of_nil in Hstart.
    + rewrite <- app_comm_cons in Hrest. injection Hrest as <- _.
      assert (Hin : logger_info m ∈ init_calls 0).
      { rewrite Hinit. apply elem_of_app. right. left. }
      each_element Hin.
  - destruct (start_message_in_session ops 0 l m post Hrest Hm)
      as (-> & Hreg & Hstart).
    split_and?; [done| | |].
    + apply elem_of_app. left. cbn. do 13 right. left.
    + intros svc impl Hin. apply elem_of_app. right. by apply Hreg.
    + apply elem_of_app. by right.
Qed.

Lemma start_message_after_start_witness :
  let pre := init_calls 0 ++ stop_calls 0 ++ [Order_create_table true]
             ++ register_calls 0 ++ [server_start 0] in
  start_message "127.0.0.1:50099" = start_message configured_address ∧
  add_insecure_port 0 configured_address ∈ pre ∧
  (∀ svc impl, (svc, impl) ∈ registry →
     add_servicer_to_server svc impl 0 ∈ pre) ∧
  server_start 0 ∈ pre.
Proof.
  refine (start_message_after_start all_return 0 demo_host
            [(call_stop, all_return); (call_run, all_return);
             (call_stop, all_return)]
            [Ok (); Ok (); Ok ()]
            (session [(call_stop, all_return); (call_run, all_return);
                      (call_stop, all_return)] 0 demo_host).2
            _ _ (server_wait_for_termination 0 :: stop_calls 0) _ _ _ _).
  - vm_compute. reflexivity.
  - vm_compute. reflexivity.
  - vm_compute. reflexivity.
  - discriminate.
Defined.

(** ** Calling [run] twice *)

(** X11.  [run] has no guard against a second call: on a constructed host
    and when the calls return, two calls of [run] in a row make all the
    calls of [run] twice, so the server is started twice and every service
    is bound twice. *)
Theorem run_twice_starts_twice raises w self o s a :
  heap w !! self = Some o → server o = Some s → SERVER_ADDRESS o = Some a →
  (∀ c, c ∈ run_calls s a → raises c = false) →
  let w2 := ((run self;; run self) raises w).2 in
  trace w2 = trace w ++ run_calls s a ++ run_calls s a ∧
  occurrences is_start (trace w2) = occurrences is_start (trace w) + 2 ∧
  bindings s (trace w2) = bindings s (trace w) ++ registry ++ registry.
Proof.
  intros Hself Hs Ha Hret w2.
  destruct (all_return_spec raises _ Hret) as [Hcs Hnone].
  assert (Htr : trace w2 = trace w ++ run_calls s a ++ run_calls s a).
  { unfold w2. cbv [mbind M_bind].
    rewrite (run_runs raises w self o s a Hself Hs Ha).
    unfold outcome at 1. rewrite Hnone.
    rewrite (run_runs raises (with_trace w _) self o s a Hself Hs Ha).
    cbn [snd with_trace trace]. by rewrite Hcs, <- app_assoc. }
  rewrite Htr. split_and?; [done| |].
  - rewrite !occurrences_app. unfold occurrences. cbn. lia.
  - rewrite !bindings_app. f_equal.
    assert (Hb : bindings s (run_calls s a) = registry).
    { cbn. by rewrite !decide_True. }
    by rewrite Hb.
Qed.

Lemma run_twice_starts_twice_witness :
  let w2 := ((run 0;; run 0) all_return demo_host).2 in
  trace w2 = trace demo_host ++ run_calls 0 "127.0.0.1:50099"
                             ++ run_calls 0 "127.0.0.1:50099" ∧
  occurrences is_start (trace w2) = occurrences is_start (trace demo_host) + 2 ∧
  bindings 0 (trace w2) = bindings 0 (trace demo_host) ++ registry ++ registry.
Proof.
  refine (run_twice_starts_twice all_return demo_host 0 (initialized_obj 0)
            0 "127.0.0.1:50099" _ _ _ _).
  - vm_compute. reflexivity.
  - reflexivity.
  - reflexivity.
  - intros c _. reflexivity.
Defined.

(** ** The server the host keeps *)

Lemma Server_call_keeps_last `{Settings, Descriptors} raises w r w' :
  singleton_inv w →
  servers w = occurrences is_server_creation (trace w) →
  (∀ s, heap w = [initialized_obj s] → S s = servers w) →
  Server_call raises w = (r, w') →
  servers w' = occurrences is_server_creation (trace w') ∧
  (∀ s, heap w' = [initialized_obj s] → S s = servers w').
Proof.
  intros [_ Hinv] Hcount Hlast Hcall.
  assert (Hbody : ∀ o',
    trace w' = trace w ++ returned raises (init_calls (servers w)) →
    servers w' = servers w + occurrences is_server_creation
                               (returned raises (init_calls (servers w))) →
    (first_raise raises (init_calls (servers w)) = None →
     o' = initialized_obj (servers w) ∧ servers w' = S (servers w)) →
    (first_raise raises (init_calls (servers w)) ≠ None →
     initialized o' = None) →
    heap w' = [o'] →
    servers w' = occurrences is_server_creation (trace w') ∧
    (∀ s, heap w' = [initialized_obj s] → S s = servers w')).
  { intros o' Htr Hsrv Hok Hfail Hheap. split.
    - by rewrite Htr, occurrences_app, <- Hcount.
    - intros s Hs. rewrite Hheap in Hs. injection Hs as ->.
      destruct (first_raise raises (init_calls (servers w))) eqn:Hfirst.
      + by specialize (Hfail ltac:(done)).
      + destruct (Hok eq_refl) as [[= ->] ->]. done. }
  destruct (_instance w) as [self0|] eqn:Hinst.
  - destruct Hinv as (-> & o & Hheap & _).
    assert (Hself : heap w !! 0 = Some o) by (by rewrite Hheap).
    destruct (initialized o) as [b|] eqn:Hi.
    + rewrite (Server_call_initialized raises w 0 o b Hinst Hself Hi) in Hcall.
      by apply pair_equal_spec in Hcall as [_ <-].
    + destruct (Server_call_reruns raises w 0 o r w' Hinst Hself Hi Hcall)
        as (_ & Htr & _ & Hsrv & o' & Hheap' & Hok & Hfail).
      apply (Hbody o'); try done. by rewrite Hheap', Hheap.
  - destruct Hinv as [Hheap _].
    destruct (Server_call_first raises w r w' Hinst Hcall)
      as (_ & Htr & _ & Hsrv & o' & Hheap' & Hok & Hfail).
    apply (Hbody o'); try done. by rewrite Hheap', Hheap.
Qed.

Lemma constructions_keep_last `{Settings, Descriptors} envs w rs w' :
  singleton_inv w →
  servers w = occurrences is_server_creation (trace w) →
  (∀ s, heap w = [initialized_obj s] → S s = servers w) →
  constructions envs w = (rs, w') →
  servers w' = occurrences is_server_creation (trace w') ∧
  (∀ s, heap w' = [initialized_obj s] → S s = servers w').
Proof.
  revert w rs w'.
  induction envs as [|raises envs IH]; intros w rs w' Hinv Hcount Hlast.
  - by intros [= <- <-].
  - simpl. destruct (Server_call raises w) as [r w1] eqn:Hcall.
    destruct (constructions envs w1) as [rs1 w2] eqn:Hrest.
    intros [= <- <-].
    destruct (Server_call_keeps_inv raises w r w1 Hinv Hcall) as [Hinv1 _].
    destruct (Server_call_keeps_last raises w r w1 Hinv Hcount Hlast Hcall)
      as [Hcount1 Hlast1].
    by apply (IH w1 rs1 w2).
Qed.

(** X12.  For every sequence of evaluations of [Server()] in a fresh
    process of which one returned: the server of the host is the last
    server that was created.  Every server created before it, by a
    construction that raised, is one the host does not refer to. *)
Theorem host_keeps_last_server `{Settings, Descriptors} envs rs w self :
  constructions envs fresh_process = (rs, w) →
  Ok self ∈ rs →
  ∃ s, constructed w self s ∧
       occurrences is_server_creation (trace w) = S s ∧
       ∀ s' n ics, aio_server s' n ics ∈ trace w → s' ≤ s.
Proof.
  intros Hrun Hin.
  destruct (constructions_keep_inv envs fresh_process rs w
              fresh_process_inv Hrun) as [[Hknown _] Hoks].
  destruct (Hoks ltac:(by exists self)) as (Hall & Hinst & s & Hheap).
  destruct (constructions_keep_last envs fresh_process rs w
              fresh_process_inv eq_refl ltac:(done) Hrun) as [Hcount Hlast].
  rewrite (Hall self Hin). exists s. split_and?.
  - split; [done|]. by rewrite Hheap.
  - by rewrite <- Hcount, (Hlast s Hheap).
  - intros s' n ics Hs'. destruct (Hknown s' n ics Hs') as [Hlt _].
    rewrite <- (Hlast s Hheap) in Hlt. lia.
Qed.

Lemma host_keeps_last_server_witness :
  ∃ s, constructed
         (constructions [reflection_fails; all_return] fresh_process).2 0 s ∧
       occurrences is_server_creation
         (trace (constructions [reflection_fails; all_return]
                   fresh_process).2) = S s ∧
       ∀ s' n ics,
         aio_server s' n ics
           ∈ trace (constructions [reflection_fails; all_return]
                      fresh_process).2 → s' ≤ s.
Proof.
  refine (host_keeps_last_server [reflection_fails; all_return]
            [Raise (ExternalError (enable_server_reflection SERVICE_NAMES 0));
             Ok 0] _ 0 _ _).
  - vm_compute. reflexivity.
  - right. left.
Defined.
